(** * AuxPoW support of the Dogecoin fork of btcd

    A shallow embedding of

    - [doge/auxpow.go]      (version flags),
    - [doge/validation.go]  (block subsidy),
    - [wire/auxblockheader.go] (the AuxPoW header and its codec),

    and the properties of these functions.

    Go integers are modelled as [Z] with the wrap-around of their width
    written out; byte streams are [list byte]; an [io.Reader] over an
    in-memory buffer is the list of the bytes still to be read; an
    [io.Writer] is the list of the bytes written. *)

From Stdlib Require Import ZArith List Lia Bool.
From coqutil Require Import Byte Word.LittleEndianList.
Import ListNotations.
Local Open Scope Z_scope.

(** ** Go's fixed-width integers *)

Module GoInt.

(** Two's complement wrap-around of a [w]-bit signed integer. *)
Definition wrap_signed (w : Z) (z : Z) : Z :=
  (z + 2 ^ (w - 1)) mod 2 ^ w - 2 ^ (w - 1).

Definition wrap_unsigned (w : Z) (z : Z) : Z := z mod 2 ^ w.

Definition int32 (z : Z) : Z := wrap_signed 32 z.
Definition int64 (z : Z) : Z := wrap_signed 64 z.
Definition uint32 (z : Z) : Z := wrap_unsigned 32 z.
Definition uint64 (z : Z) : Z := wrap_unsigned 64 z.

Definition is_int32 (z : Z) : Prop := - 2 ^ 31 <= z < 2 ^ 31.
Definition is_int64 (z : Z) : Prop := - 2 ^ 63 <= z < 2 ^ 63.
Definition is_uint32 (z : Z) : Prop := 0 <= z < 2 ^ 32.
Definition is_uint64 (z : Z) : Prop := 0 <= z < 2 ^ 64.

(** [x / y] on int32: the quotient truncates toward zero. *)
Definition int32_div (x y : Z) : Z := int32 (Z.quot x y).

(** [x % y] on int32: the remainder has the sign of the dividend. *)
Definition int32_rem (x y : Z) : Z := int32 (Z.rem x y).

(** [x & y] on int32. *)
Definition int32_and (x y : Z) : Z := int32 (Z.land x y).

(** [x * y] on int64. *)
Definition int64_mul (x y : Z) : Z := int64 (x * y).

(** [x << s] on int64 with a signed shift count: a negative count is a
    run-time panic ([None]); bits shifted out of the 64 are lost. *)
Definition int64_shl (x s : Z) : option Z :=
  if s <? 0 then None else Some (int64 (Z.shiftl x s)).

End GoInt.

(** ** Package doge *)

Module Doge.
Import GoInt.

(** *** auxpow.go *)

Definition blockMinVersionAuxpow : Z := 0x00620002.
Definition blockVersionFlagAuxpow : Z := 0x00000100.
Definition versionAuxPow : Z := Z.shiftl 1 8.

Definition IsAuxPoWBlockVersion (version : Z) : bool :=
  (blockMinVersionAuxpow <=? version)
  && (0 <? int32_and version blockVersionFlagAuxpow).

Definition GetBaseVersion (version : Z) : Z :=
  int32_rem version versionAuxPow.

(** *** validation.go *)

Definition digishieldBlockHeight : Z := 145000.
Definition baseSubsidy : Z := 50000000000000.
Definition subsidyDecreaseBlockCount : Z := 100000.

(** [None] is the run-time panic of a shift by a negative count. *)
Definition CalcBlockSubsidy (height : Z) : option Z :=
  if height <? digishieldBlockHeight then
    match int64_shl baseSubsidy (int32_div height subsidyDecreaseBlockCount) with
    | Some v => Some (int64_mul v 2)
    | None => None
    end
  else if height <? 600000 then
    int64_shl baseSubsidy (int32_div height subsidyDecreaseBlockCount)
  else
    Some baseSubsidy.

End Doge.

(** ** Package wire: auxblockheader.go *)

Module Wire.
Import GoInt.

(** *** Streams and errors *)

(** An [io.Reader] over a buffer: the bytes not yet consumed.
    An [io.Writer] into a buffer: the bytes written so far. *)
Definition reader := list byte.
Definition writer := list byte.

Inductive error : Type :=
| EOF                 (* io.EOF *)
| ErrUnexpectedEOF    (* io.ErrUnexpectedEOF *)
| ErrInvalidType      (* encoding/binary: invalid type *)
| MessageError.       (* wire.MessageError *)

(** A decoding step on a receiver of type [S]: the error (if any), the
    receiver after the step and the reader after the step.  The receiver
    and the reader are returned also when the step fails, as the Go code
    mutates both in place before it returns the error. *)
Definition Decoder (S : Type) : Type := S -> reader -> option error * S * reader.

(** Run [f], and run [g] only when [f] returned no error
    ([if err != nil { return err }]). *)
Definition andThen {S} (f g : Decoder S) : Decoder S :=
  fun s r =>
    match f s r with
    | (Some e, s', r') => (Some e, s', r')
    | (None, s', r') => g s' r'
    end.

(** Run [f] and drop the error it returns ([_ = f(...)], or a call whose
    result is not looked at). *)
Definition ignoring {S} (f : Decoder S) : Decoder S :=
  fun s r => let '(_, s', r') := f s r in (None, s', r').

(** Run a decoder of a field on the field [get s] of the receiver. *)
Definition field {S A} (get : S -> A) (set : A -> S -> S) (f : Decoder A) : Decoder S :=
  fun s r => let '(e, a, r') := f (get s) r in (e, set a s, r').

Declare Scope dec_scope.
Delimit Scope dec_scope with dec.
Notation "f >> g" := (andThen f g) (at level 61, left associativity) : dec_scope.

(** The "setter" of a field that was handed to its decoder by value:
    what the decoder computes does not reach the receiver. *)
Definition keep {S A} (a : A) (s : S) : S := s.

(** [io.ReadFull(r, buf)] with [len(buf) = n]: the bytes read into [buf]
    (all [n], or the ones that were left) come with the error. *)
Definition io_ReadFull (n : nat) (r : reader) : option error * list byte * reader :=
  if (n <=? length r)%nat then (None, firstn n r, skipn n r)
  else match r with
       | [] => (Some EOF, [], [])
       | _ :: _ => (Some ErrUnexpectedEOF, r, [])
       end.

(** *** Data *)

(** [chainhash.Hash] is [[32]byte]. *)
Definition HashSize : nat := 32.
Definition Hash : Type := list byte.
Definition Hash_zero : Hash := repeat Byte.x00 HashSize.

(** [time.Time], as far as this file uses it: the Unix seconds and the
    nanoseconds within the second. *)
Record Time : Type := mkTime { unix_sec : Z; unix_nsec : Z }.

(** [time.Unix(sec, 0)] and [t.Unix()]. *)
Definition time_Unix (sec : Z) : Time := mkTime sec 0.
Definition Time_Unix (t : Time) : Z := unix_sec t.
(** The zero [time.Time] is January 1, year 1, 00:00:00 UTC. *)
Definition Time_zero : Time := mkTime (-62135596800) 0.

Record MerkleBranch : Type := mkMerkleBranch {
  LinkHashes : list Hash;
  BranchSidesBitmask : Z;
}.

Record ParentBlock : Type := mkParentBlock {
  Version : Z;
  PrevBlock : Hash;
  MerkleRoot : Hash;
  Timestamp : Time;
  Bits : Z;
  Nonce : Z;
}.

Record AuxBlockHeader (Tx : Type) : Type := mkAuxBlockHeader {
  ParentCoinbase : Tx;
  ParentBlockHash : Hash;
  CoinbaseBranch : MerkleBranch;
  BlockchainBranch : MerkleBranch;
  ParentBlock_ : ParentBlock;
}.
Arguments mkAuxBlockHeader {Tx}.
Arguments ParentCoinbase {Tx}.
Arguments ParentBlockHash {Tx}.
Arguments CoinbaseBranch {Tx}.
Arguments BlockchainBranch {Tx}.
Arguments ParentBlock_ {Tx}.

(** Modelled from the spec: the declaration of [BlockHeader] is not under
    src/; the spec (sections 3, 4.4 and 6) gives it the six fields of
    [ParentBlock] and a settable auxiliary-payload field. *)
Record BlockHeader (Tx : Type) : Type := mkBlockHeader {
  bh_Version : Z;
  bh_PrevBlock : Hash;
  bh_MerkleRoot : Hash;
  bh_Timestamp : Time;
  bh_Bits : Z;
  bh_Nonce : Z;
  bh_AuxData : AuxBlockHeader Tx;
}.
Arguments mkBlockHeader {Tx}.
Arguments bh_Version {Tx}.
Arguments bh_PrevBlock {Tx}.
Arguments bh_MerkleRoot {Tx}.
Arguments bh_Timestamp {Tx}.
Arguments bh_Bits {Tx}.
Arguments bh_Nonce {Tx}.
Arguments bh_AuxData {Tx}.

(** Zero values ([T{}]). *)
Definition MerkleBranch_zero : MerkleBranch := mkMerkleBranch [] 0.
Definition ParentBlock_zero : ParentBlock :=
  mkParentBlock 0 Hash_zero Hash_zero Time_zero 0 0.

(** Field updates. *)
Definition set_Version (v : Z) (pb : ParentBlock) : ParentBlock :=
  mkParentBlock v (PrevBlock pb) (MerkleRoot pb) (Timestamp pb) (Bits pb) (Nonce pb).
Definition set_PrevBlock (h : Hash) (pb : ParentBlock) : ParentBlock :=
  mkParentBlock (Version pb) h (MerkleRoot pb) (Timestamp pb) (Bits pb) (Nonce pb).
Definition set_MerkleRoot (h : Hash) (pb : ParentBlock) : ParentBlock :=
  mkParentBlock (Version pb) (PrevBlock pb) h (Timestamp pb) (Bits pb) (Nonce pb).
Definition set_Timestamp (t : Time) (pb : ParentBlock) : ParentBlock :=
  mkParentBlock (Version pb) (PrevBlock pb) (MerkleRoot pb) t (Bits pb) (Nonce pb).
Definition set_Bits (b : Z) (pb : ParentBlock) : ParentBlock :=
  mkParentBlock (Version pb) (PrevBlock pb) (MerkleRoot pb) (Timestamp pb) b (Nonce pb).
Definition set_Nonce (n : Z) (pb : ParentBlock) : ParentBlock :=
  mkParentBlock (Version pb) (PrevBlock pb) (MerkleRoot pb) (Timestamp pb) (Bits pb) n.

Definition set_LinkHashes (hs : list Hash) (mb : MerkleBranch) : MerkleBranch :=
  mkMerkleBranch hs (BranchSidesBitmask mb).

Definition set_ParentCoinbase {Tx} (tx : Tx) (h : AuxBlockHeader Tx) : AuxBlockHeader Tx :=
  mkAuxBlockHeader tx (ParentBlockHash h) (CoinbaseBranch h) (BlockchainBranch h) (ParentBlock_ h).
Definition set_ParentBlockHash {Tx} (x : Hash) (h : AuxBlockHeader Tx) : AuxBlockHeader Tx :=
  mkAuxBlockHeader (ParentCoinbase h) x (CoinbaseBranch h) (BlockchainBranch h) (ParentBlock_ h).
Definition set_CoinbaseBranch {Tx} (b : MerkleBranch) (h : AuxBlockHeader Tx) : AuxBlockHeader Tx :=
  mkAuxBlockHeader (ParentCoinbase h) (ParentBlockHash h) b (BlockchainBranch h) (ParentBlock_ h).
Definition set_BlockchainBranch {Tx} (b : MerkleBranch) (h : AuxBlockHeader Tx) : AuxBlockHeader Tx :=
  mkAuxBlockHeader (ParentCoinbase h) (ParentBlockHash h) (CoinbaseBranch h) b (ParentBlock_ h).
Definition set_ParentBlock {Tx} (pb : ParentBlock) (h : AuxBlockHeader Tx) : AuxBlockHeader Tx :=
  mkAuxBlockHeader (ParentCoinbase h) (ParentBlockHash h) (CoinbaseBranch h) (BlockchainBranch h) pb.

(** *** Primitive codecs (wire/common.go) *)

(** Modelled from the spec: [binarySerializer], [readElement],
    [readElements], [writeElement], [writeElements], [ReadVarInt] and
    [WriteVarInt] live in wire/common.go, which is not under src/.  The
    spec (section 6) fixes the layout: multi-byte integers are
    little-endian, a hash is 32 bytes verbatim, a count is a compact
    variable-width unsigned integer.  Reads go through [io.ReadFull]. *)
Definition binarySerializer_Uint (n : nat) (r : reader) : option error * Z * reader :=
  match io_ReadFull n r with
  | (Some e, _, r') => (Some e, 0, r')
  | (None, buf, r') => (None, le_combine buf, r')
  end.

Definition binarySerializer_Uint8 := binarySerializer_Uint 1.
Definition binarySerializer_Uint16 := binarySerializer_Uint 2.
Definition binarySerializer_Uint32 := binarySerializer_Uint 4.
Definition binarySerializer_Uint64 := binarySerializer_Uint 8.

(** Modelled from the spec: [ReadVarInt] (not under src/), section 6:
    "1 byte for values < 0xfd, else a marker byte plus 2/4/8 bytes".  The
    spec does not say whether a count in a longer form than it needs is
    refused; no stream used below holds one. *)
Definition ReadVarInt (r : reader) (pver : Z) : option error * Z * reader :=
  match binarySerializer_Uint8 r with
  | (Some e, _, r') => (Some e, 0, r')
  | (None, discriminant, r') =>
      if discriminant =? 0xff then binarySerializer_Uint64 r'
      else if discriminant =? 0xfe then binarySerializer_Uint32 r'
      else if discriminant =? 0xfd then binarySerializer_Uint16 r'
      else (None, discriminant, r')
  end.

(** Modelled from the spec: [VarIntSerializeSize] (not under src/); the
    glossary: "1, 3, 5, or 9 bytes depending on magnitude". *)
Definition VarIntSerializeSize (val : Z) : nat :=
  if val <? 0xfd then 1
  else if val <=? 0xffff then 3
  else if val <=? 0xffffffff then 5
  else 9.

(** Modelled from the spec: [WriteVarInt] (not under src/), section 6. *)
Definition WriteVarInt (w : writer) (pver : Z) (val : Z) : option error * writer :=
  if val <? 0xfd then (None, w ++ le_split 1 val)
  else if val <=? 0xffff then (None, w ++ byte.of_Z 0xfd :: le_split 2 val)
  else if val <=? 0xffffffff then (None, w ++ byte.of_Z 0xfe :: le_split 4 val)
  else (None, w ++ byte.of_Z 0xff :: le_split 8 val).

(** The bytes [io.ReadFull(r, e[:])] leaves in a fixed array [e]: the
    bytes read overwrite a prefix of it. *)
Definition overwrite (old new : list byte) : list byte :=
  new ++ skipn (length new) old.

(** Modelled from the spec: [readElement] (not under src/) at the types of
    destination this file passes to it.

    - [*chainhash.Hash]: 32 bytes read into the array. *)
Definition readElement_Hash : Decoder Hash :=
  fun e r =>
    let '(err, buf, r') := io_ReadFull HashSize r in (err, overwrite e buf, r').

(** - [*int32]: four bytes, little-endian, stored as [int32(rv)]; nothing
      is stored when the read fails. *)
Definition readElement_int32 : Decoder Z :=
  fun e r =>
    match binarySerializer_Uint32 r with
    | (Some err, _, r') => (Some err, e, r')
    | (None, rv, r') => (None, int32 rv, r')
    end.

(** - [*uint32]. *)
Definition readElement_uint32 : Decoder Z :=
  fun e r =>
    match binarySerializer_Uint32 r with
    | (Some err, _, r') => (Some err, e, r')
    | (None, rv, r') => (None, rv, r')
    end.

(** - [*uint32Time]: four bytes, stored as [time.Unix(int64(rv), 0)]. *)
Definition readElement_uint32Time : Decoder Time :=
  fun e r =>
    match binarySerializer_Uint32 r with
    | (Some err, _, r') => (Some err, e, r')
    | (None, rv, r') => (None, time_Unix rv, r')
    end.

(** - [int32], passed by value (lines 166 and 182): there is no location
      to store into.  The spec has the decoder read one signed 32-bit
      value here, so four bytes are consumed (as [encoding/binary.Read],
      the fall-back of [readElement], does for an [int32] before it
      rejects the non-pointer with "invalid type"); the value [e] the
      caller passed is all that is left of it. *)
Definition readElement_int32_byValue : Decoder Z :=
  fun e r =>
    match io_ReadFull 4 r with
    | (Some err, _, r') => (Some err, e, r')
    | (None, _, r') => (Some ErrInvalidType, e, r')
    end.

(** Modelled from the spec: [writeElement] (not under src/) at the types
    of element this file passes to it. *)
Inductive element : Type :=
| E_int32 (v : Z)             (* int32 *)
| E_uint32 (v : Z)            (* uint32 *)
| E_HashPtr (h : Hash)        (* *chainhash.Hash *)
| E_HashPtrPtr (h : Hash).    (* **chainhash.Hash: the address of a slot of []*chainhash.Hash *)

(** Integers are written as four little-endian bytes and a hash as its 32
    bytes; a pointer to a pointer is no fixed-size value, nothing is
    written for it and an error is returned. *)
Definition writeElement (w : writer) (e : element) : option error * writer :=
  match e with
  | E_int32 v => (None, w ++ le_split 4 (uint32 v))
  | E_uint32 v => (None, w ++ le_split 4 v)
  | E_HashPtr h => (None, w ++ h)
  | E_HashPtrPtr _ => (Some ErrInvalidType, w)
  end.

(** [writeElements(w, elements...)]: stops at the first error. *)
Fixpoint writeElements (w : writer) (elements : list element) : option error * writer :=
  match elements with
  | [] => (None, w)
  | e :: es =>
      match writeElement w e with
      | (Some err, w') => (Some err, w')
      | (None, w') => writeElements w' es
      end
  end.

(** Modelled from the spec: [writeBlockHeader] is not under src/.  Section
    4.4: the six fields in the order of the decoder, "with timestamp
    truncated to 1-second precision before truncating to the 32-bit wire
    width".  The auxiliary payload of the header [ToBlockHeader] builds
    is the empty one and is not written. *)
Definition writeBlockHeader {Tx} (w : writer) (pver : Z) (bh : BlockHeader Tx)
           (skipAux : bool) : option error * writer :=
  let sec := uint32 (Time_Unix (bh_Timestamp bh)) in
  writeElements w [E_int32 (bh_Version bh); E_HashPtr (bh_PrevBlock bh);
                   E_HashPtr (bh_MerkleRoot bh); E_uint32 sec;
                   E_uint32 (bh_Bits bh); E_uint32 (bh_Nonce bh)].

(** *** The transaction codec *)

Inductive MessageEncoding : Type := BaseEncoding | WitnessEncoding.

(** [MsgTx] with its [BtcDecode] and [BtcEncode] is declared in
    wire/msgtx.go, not under src/: the functions below take it as a
    parameter.  [BtcDecode] returns its error, the receiver and the
    reader as it leaves them; [BtcEncode] returns its error and the
    bytes it has written. *)
Record TxCodec : Type := mkTxCodec {
  MsgTx : Type;
  MsgTx_zero : MsgTx;
  MsgTx_BtcDecode : Z -> MessageEncoding -> Decoder MsgTx;
  MsgTx_BtcEncode : MsgTx -> Z -> MessageEncoding -> option error * list byte;
}.

(** *** auxblockheader.go *)

Section AuxBlockHeaderCodec.
Variable codec : TxCodec.
Local Open Scope dec_scope.

Definition AuxBlockHeader_zero : AuxBlockHeader (MsgTx codec) :=
  mkAuxBlockHeader (MsgTx_zero codec) Hash_zero MerkleBranch_zero
                   MerkleBranch_zero ParentBlock_zero.

Definition ToBlockHeader (pb : ParentBlock) : BlockHeader (MsgTx codec) :=
  mkBlockHeader (Version pb) (PrevBlock pb) (MerkleRoot pb)
                (Timestamp pb) (Bits pb) (Nonce pb) AuxBlockHeader_zero.

(** [readElements] on the addresses of the six fields in their order,
    the one of [Timestamp] converted to a pointer to [uint32Time]. *)
Definition ParentBlock_BtcDecode : Decoder ParentBlock :=
  field Version set_Version readElement_int32
  >> field PrevBlock set_PrevBlock readElement_Hash
  >> field MerkleRoot set_MerkleRoot readElement_Hash
  >> field Timestamp set_Timestamp readElement_uint32Time
  >> field Bits set_Bits readElement_uint32
  >> field Nonce set_Nonce readElement_uint32.

(** The loop of lines 158-165 (and 174-181) with [n] iterations left:
    each one reads a hash into a fresh slot and appends it; a failed
    read returns its error with the hashes appended so far. *)
Fixpoint readLinkHashes (n : nat) (acc : list Hash) (r : reader)
  : option error * list Hash * reader :=
  match n with
  | O => (None, acc, r)
  | S n' =>
      match readElement_Hash Hash_zero r with
      | (Some err, _, r') => (Some err, acc, r')
      | (None, hash, r') => readLinkHashes n' (acc ++ [hash]) r'
      end
  end.

(** Lines 152-166 (and 168-182): one merkle branch.  The slice is
    replaced once the count is read; the bitmask read gets the
    [int32] by value and its error is dropped.  The allocation of [count]
    slots ahead of the reads is not modelled. *)
Definition readMerkleBranch (pver : Z) : Decoder MerkleBranch :=
  fun mb r =>
    match ReadVarInt r pver with
    | (Some err, _, r') => (Some err, mb, r')
    | (None, count, r') =>
        match readLinkHashes (Z.to_nat count) [] r' with
        | (Some err, hs, r'') => (Some err, set_LinkHashes hs mb, r'')
        | (None, hs, r'') =>
            field BranchSidesBitmask keep
                  (ignoring readElement_int32_byValue)
                  (set_LinkHashes hs mb) r''
        end
    end.

Definition readAuxBlockHeader (r : reader) (pver : Z) (bh : AuxBlockHeader (MsgTx codec))
  : option error * AuxBlockHeader (MsgTx codec) * reader :=
  (ignoring (field ParentCoinbase set_ParentCoinbase
                   (MsgTx_BtcDecode codec pver BaseEncoding))
   >> ignoring (field ParentBlockHash set_ParentBlockHash readElement_Hash)
   >> field CoinbaseBranch set_CoinbaseBranch (readMerkleBranch pver)
   >> field BlockchainBranch set_BlockchainBranch (readMerkleBranch pver)
   >> ignoring (field ParentBlock_ set_ParentBlock ParentBlock_BtcDecode))
    bh r.

(** [h.Deserialize(r)] and [h.BtcDecode(r, pver, enc)]. *)
Definition Deserialize (h : AuxBlockHeader (MsgTx codec)) (r : reader) :=
  readAuxBlockHeader r 0 h.
Definition BtcDecode (h : AuxBlockHeader (MsgTx codec)) (r : reader) (pver : Z)
           (enc : MessageEncoding) :=
  readAuxBlockHeader r pver h.

(** Lines 197-202 (and 204-209): one merkle branch.  Every error is
    dropped.  The loop hands [writeElements] two elements per hash:
    [pver] and the address of the slot of the slice. *)
Definition writeMerkleBranch (w : writer) (pver : Z) (mb : MerkleBranch) : writer :=
  let count := uint64 (Z.of_nat (length (LinkHashes mb))) in
  let w := snd (WriteVarInt w pver count) in
  let w := fold_left
             (fun w hash => snd (writeElements w [E_uint32 pver; E_HashPtrPtr hash]))
             (LinkHashes mb) w in
  snd (writeElements w [E_int32 (BranchSidesBitmask mb)]).

Definition writeAuxBlockHeader (w : writer) (pver : Z) (bh : AuxBlockHeader (MsgTx codec))
  : option error * writer :=
  let w := w ++ snd (MsgTx_BtcEncode codec (ParentCoinbase bh) pver BaseEncoding) in
  let w := snd (writeElements w [E_HashPtr (ParentBlockHash bh)]) in
  let w := writeMerkleBranch w pver (CoinbaseBranch bh) in
  let w := writeMerkleBranch w pver (BlockchainBranch bh) in
  let w := snd (writeBlockHeader w pver (ToBlockHeader (ParentBlock_ bh)) true) in
  (None, w).

(** [h.Serialize(w)] and [h.BtcEncode(w, pver, enc)]. *)
Definition Serialize (h : AuxBlockHeader (MsgTx codec)) (w : writer) :=
  writeAuxBlockHeader w 0 h.
Definition BtcEncode (h : AuxBlockHeader (MsgTx codec)) (w : writer) (pver : Z)
           (enc : MessageEncoding) :=
  writeAuxBlockHeader w pver h.

End AuxBlockHeaderCodec.

End Wire.

(** ** A transaction codec to run the header codec on *)

Module BaseTx.
Import GoInt Wire.

(** Modelled from the spec: [MsgTx], [BtcDecode] and [BtcEncode] of
    wire/msgtx.go are not under src/; the spec names them as the external
    transaction codec ([decode(stream) -> Transaction | error],
    [encode(Transaction, stream)]).  This instance is the base
    (non-witness) transaction layout of the Bitcoin protocol: version,
    counted inputs (outpoint, script, sequence), counted outputs (value,
    script), lock time; a count or script length beyond what fits a
    message is refused before anything is read for it.  It serves to run
    [readAuxBlockHeader] and [writeAuxBlockHeader] on concrete streams;
    the general lemmas on them hold for every [TxCodec]. *)
Record OutPoint : Type := mkOutPoint { op_Hash : Hash; op_Index : Z }.
Record TxIn : Type := mkTxIn {
  PreviousOutPoint : OutPoint;
  SignatureScript : list byte;
  Sequence : Z;
}.
Record TxOut : Type := mkTxOut { Value : Z; PkScript : list byte }.
Record MsgTx : Type := mkMsgTx {
  tx_Version : Z;
  tx_TxIn : list TxIn;
  tx_TxOut : list TxOut;
  tx_LockTime : Z;
}.

Definition MsgTx_zero : MsgTx := mkMsgTx 0 [] [] 0.

Definition MaxMessagePayload : Z := 1024 * 1024 * 32.
Definition minTxInPayload : Z := 9 + Z.of_nat HashSize.
Definition maxTxInPerMessage : Z := MaxMessagePayload / minTxInPayload + 1.
Definition minTxOutPayload : Z := 9.
Definition maxTxOutPerMessage : Z := MaxMessagePayload / minTxOutPayload + 1.

(** Reads that stop at the first error. *)
Definition Read (A : Type) : Type := reader -> (error + A) * reader.

Definition ret {A} (a : A) : Read A := fun r => (inr a, r).
Definition fail {A} (e : error) : Read A := fun r => (inl e, r).
Definition bind {A B} (m : Read A) (k : A -> Read B) : Read B :=
  fun r =>
    match m r with
    | (inl e, r') => (inl e, r')
    | (inr a, r') => k a r'
    end.

Notation "x <- m ;; k" := (bind m (fun x => k))
  (at level 62, m at next level, right associativity).

Definition lift {A} (f : reader -> option error * A * reader) : Read A :=
  fun r =>
    match f r with
    | (Some e, _, r') => (inl e, r')
    | (None, a, r') => (inr a, r')
    end.

Definition uint32 : Read Z := lift binarySerializer_Uint32.
Definition uint64 : Read Z := lift binarySerializer_Uint64.
Definition varint (pver : Z) : Read Z := lift (fun r => ReadVarInt r pver).

(** [io.ReadFull] into a buffer of [n] bytes. *)
Definition bytes (n : Z) : Read (list byte) :=
  fun r =>
    if n <=? Z.of_nat (length r) then
      (inr (firstn (Z.to_nat n) r), skipn (Z.to_nat n) r)
    else
      (inl (match r with [] => EOF | _ :: _ => ErrUnexpectedEOF end), []).

Fixpoint times {A} (n : nat) (m : Read A) : Read (list A) :=
  match n with
  | O => ret []
  | S n' => a <- m ;; l <- times n' m ;; ret (a :: l)
  end.

Definition readScript (pver : Z) : Read (list byte) :=
  count <- varint pver ;;
  if MaxMessagePayload <? count then fail MessageError else bytes count.

Definition readTxIn (pver : Z) : Read TxIn :=
  h <- bytes (Z.of_nat HashSize) ;;
  i <- uint32 ;;
  s <- readScript pver ;;
  q <- uint32 ;;
  ret (mkTxIn (mkOutPoint h i) s q).

Definition readTxOut (pver : Z) : Read TxOut :=
  v <- uint64 ;;
  s <- readScript pver ;;
  ret (mkTxOut (GoInt.int64 v) s).

Definition readMsgTx (pver : Z) : Read MsgTx :=
  version <- uint32 ;;
  count <- varint pver ;;
  if maxTxInPerMessage <? count then fail MessageError else
  ins <- times (Z.to_nat count) (readTxIn pver) ;;
  count <- varint pver ;;
  if maxTxOutPerMessage <? count then fail MessageError else
  outs <- times (Z.to_nat count) (readTxOut pver) ;;
  lockTime <- uint32 ;;
  ret (mkMsgTx (GoInt.int32 version) ins outs lockTime).

(** On failure the receiver is handed back as it was given: what a
    failed decode leaves in it is not modelled. *)
Definition BtcDecode (pver : Z) (enc : MessageEncoding) : Decoder MsgTx :=
  fun msg r =>
    match readMsgTx pver r with
    | (inl e, r') => (Some e, msg, r')
    | (inr tx, r') => (None, tx, r')
    end.

Definition varintBytes (pver : Z) (val : Z) : list byte :=
  snd (WriteVarInt [] pver val).

Definition writeScript (pver : Z) (s : list byte) : list byte :=
  varintBytes pver (Z.of_nat (length s)) ++ s.

Definition writeTxIn (pver : Z) (ti : TxIn) : list byte :=
  op_Hash (PreviousOutPoint ti)
  ++ le_split 4 (op_Index (PreviousOutPoint ti))
  ++ writeScript pver (SignatureScript ti)
  ++ le_split 4 (Sequence ti).

Definition writeTxOut (pver : Z) (to : TxOut) : list byte :=
  le_split 8 (Value to) ++ writeScript pver (PkScript to).

Definition BtcEncode (msg : MsgTx) (pver : Z) (enc : MessageEncoding)
  : option error * list byte :=
  (None,
   le_split 4 (tx_Version msg)
   ++ varintBytes pver (Z.of_nat (length (tx_TxIn msg)))
   ++ flat_map (writeTxIn pver) (tx_TxIn msg)
   ++ varintBytes pver (Z.of_nat (length (tx_TxOut msg)))
   ++ flat_map (writeTxOut pver) (tx_TxOut msg)
   ++ le_split 4 (tx_LockTime msg)).

Definition codec : TxCodec := mkTxCodec MsgTx MsgTx_zero BtcDecode BtcEncode.

End BaseTx.

(** ** Valid values and sample data *)

Module Valid.
Import GoInt Wire.

(** A hash has its 32 bytes; integer fields are in the range of their Go
    type; a timestamp is what the wire can carry: whole seconds that fit
    32 unsigned bits. *)
Definition wf_Hash (h : Hash) : Prop := length h = HashSize.

Definition wf_Time (t : Time) : Prop :=
  is_uint32 (unix_sec t) /\ unix_nsec t = 0.

Definition wf_MerkleBranch (mb : MerkleBranch) : Prop :=
  Forall wf_Hash (LinkHashes mb) /\ is_int32 (BranchSidesBitmask mb).

Definition wf_ParentBlock (pb : ParentBlock) : Prop :=
  is_int32 (Version pb) /\ wf_Hash (PrevBlock pb) /\ wf_Hash (MerkleRoot pb)
  /\ wf_Time (Timestamp pb) /\ is_uint32 (Bits pb) /\ is_uint32 (Nonce pb).

Definition wf_AuxBlockHeader {Tx} (x : AuxBlockHeader Tx) : Prop :=
  wf_Hash (ParentBlockHash x)
  /\ wf_MerkleBranch (CoinbaseBranch x)
  /\ wf_MerkleBranch (BlockchainBranch x)
  /\ wf_ParentBlock (ParentBlock_ x).

(** The transaction [tx] survives the codec, whatever follows it in the
    stream and whatever the receiver held. *)
Definition tx_roundtrips (codec : TxCodec) (pver : Z) (tx : MsgTx codec) : Prop :=
  forall (msg : MsgTx codec) (rest : reader),
    MsgTx_BtcDecode codec pver BaseEncoding msg
      (snd (MsgTx_BtcEncode codec tx pver BaseEncoding) ++ rest)
    = (None, tx, rest).

(** [x] with the bitmask of both of its branches set to 0. *)
Definition clear_bitmasks {Tx} (x : AuxBlockHeader Tx) : AuxBlockHeader Tx :=
  mkAuxBlockHeader (ParentCoinbase x) (ParentBlockHash x)
                   (mkMerkleBranch (LinkHashes (CoinbaseBranch x)) 0)
                   (mkMerkleBranch (LinkHashes (BlockchainBranch x)) 0)
                   (ParentBlock_ x).

(** What [decode (encode x) = x] says for the header codec: the bytes
    [Serialize] writes for [x], read back by [Deserialize] into a fresh
    header, give [x] and no error. *)
Definition roundtrips (codec : TxCodec) (x : AuxBlockHeader (MsgTx codec)) : Prop :=
  exists rest,
    Deserialize codec (AuxBlockHeader_zero codec) (snd (Serialize codec x []))
    = (None, x, rest).

End Valid.

Module Sample.
Import GoInt Wire.

Definition bytes_of (l : list Z) : list byte := map byte.of_Z l.

Definition hashA : Hash := repeat (byte.of_Z 0xaa) 32.
Definition hashB : Hash := repeat (byte.of_Z 0x11) 32.
Definition hashC : Hash := repeat (byte.of_Z 0x22) 32.

(** A transaction without inputs and outputs: version 1, lock time 0. *)
Definition tx : BaseTx.MsgTx := BaseTx.mkMsgTx 1 [] [] 0.
Definition tx_bytes : list byte := bytes_of [1; 0; 0; 0; 0; 0; 0; 0; 0; 0].

Definition parent : ParentBlock :=
  mkParentBlock 2 hashB hashC (time_Unix 1600000000) 0x1d00ffff 12345.

Definition parent_bytes : list byte :=
  bytes_of [2; 0; 0; 0] ++ hashB ++ hashC
  ++ bytes_of [0; 16; 94; 95; 255; 255; 0; 29; 57; 48; 0; 0].

Definition header (coinbase blockchain : MerkleBranch)
  : AuxBlockHeader BaseTx.MsgTx :=
  mkAuxBlockHeader tx hashA coinbase blockchain parent.

(** No link hashes, bitmasks 0. *)
Definition plain : AuxBlockHeader BaseTx.MsgTx :=
  header (mkMerkleBranch [] 0) (mkMerkleBranch [] 0).

(** No link hashes, bitmask 1 in the coinbase branch. *)
Definition with_bitmask : AuxBlockHeader BaseTx.MsgTx :=
  header (mkMerkleBranch [] 1) (mkMerkleBranch [] 0).

(** One link hash in the coinbase branch. *)
Definition with_hash : AuxBlockHeader BaseTx.MsgTx :=
  header (mkMerkleBranch [hashA] 0) (mkMerkleBranch [] 0).

(** A header whose receiver already holds bitmasks. *)
Definition used_receiver : AuxBlockHeader BaseTx.MsgTx :=
  header (mkMerkleBranch [] 7) (mkMerkleBranch [] 9).

(** A stream that ends after the count of the second branch: its
    bitmask and the parent header are missing. *)
Definition truncated : reader :=
  tx_bytes ++ hashA ++ bytes_of [0; 5; 0; 0; 0; 0].

(** A stream whose transaction announces 0xffffffff inputs, followed by
    a complete rest of a header. *)
Definition bad_tx : reader :=
  bytes_of [1; 0; 0; 0; 0xfe; 0xff; 0xff; 0xff; 0xff] ++ hashA
  ++ bytes_of [0; 5; 0; 0; 0; 0; 6; 0; 0; 0] ++ parent_bytes.

(** A complete stream with bitmasks 5 and 6. *)
Definition complete : reader :=
  tx_bytes ++ hashA
  ++ bytes_of [0; 5; 0; 0; 0; 0; 6; 0; 0; 0] ++ parent_bytes.

End Sample.

(** ** The constructor, and a measure of what a decoder consumes *)

Module Construct.
Import GoInt Wire.

(** [NewAuxBlockHeader] (lines 126-142).  [now] is what [time.Now()]
    returns; the two hashes arrive as pointers, [None] being nil, and the
    result is [None] when dereferencing one of them panics.  All fields
    but [ParentBlock] keep their zero value. *)
Definition NewAuxBlockHeader (codec : TxCodec) (now : Time) (version : Z)
           (prevHash merkleRootHash : option Hash) (bits nonce : Z)
  : option (AuxBlockHeader (MsgTx codec)) :=
  match prevHash, merkleRootHash with
  | Some prev, Some root =>
      Some (mkAuxBlockHeader
              (MsgTx_zero codec) Hash_zero MerkleBranch_zero MerkleBranch_zero
              (mkParentBlock version prev root (time_Unix (Time_Unix now))
                             bits nonce))
  | _, _ => None
  end.

(** [f] needs exactly [n] bytes: on a stream that has them it returns no
    error and leaves what follows them; on a shorter stream it returns
    [io.EOF] or [io.ErrUnexpectedEOF] and leaves nothing. *)
Definition reads_exactly {S} (n : nat) (f : Decoder S) : Prop :=
  forall (s : S) (r : reader),
    ((n <= length r)%nat ->
     fst (fst (f s r)) = None /\ snd (f s r) = skipn n r)
    /\ ((length r < n)%nat ->
        (fst (fst (f s r)) = Some EOF \/ fst (fst (f s r)) = Some ErrUnexpectedEOF)
        /\ snd (f s r) = []).

(** [bh] with other link hashes in its two branches. *)
Definition with_LinkHashes {Tx} (hs1 hs2 : list Hash) (bh : AuxBlockHeader Tx)
  : AuxBlockHeader Tx :=
  set_BlockchainBranch
    (set_LinkHashes hs2 (BlockchainBranch bh))
    (set_CoinbaseBranch (set_LinkHashes hs1 (CoinbaseBranch bh)) bh).

End Construct.

(** * Properties *)

(** ** Fixed-width integers *)

Module GoIntFacts.
Import GoInt.

Lemma pow2_double w : 0 < w -> 2 ^ w = 2 * 2 ^ (w - 1).
Proof.
  intros Hw. replace w with (Z.succ (w - 1)) at 1 by lia.
  rewrite Z.pow_succ_r by lia. reflexivity.
Qed.

Lemma wrap_signed_small w z :
  0 < w -> - 2 ^ (w - 1) <= z < 2 ^ (w - 1) -> wrap_signed w z = z.
Proof.
  intros Hw Hz. unfold wrap_signed.
  pose proof (pow2_double w Hw).
  rewrite Z.mod_small by lia. lia.
Qed.

Lemma int32_small z : is_int32 z -> int32 z = z.
Proof. intros H. apply wrap_signed_small; [lia | exact H]. Qed.

Lemma int64_small z : is_int64 z -> int64 z = z.
Proof. intros H. apply wrap_signed_small; [lia | exact H]. Qed.

Lemma wrap_signed_range w z :
  0 < w -> - 2 ^ (w - 1) <= wrap_signed w z < 2 ^ (w - 1).
Proof.
  intros Hw. unfold wrap_signed.
  pose proof (pow2_double w Hw).
  assert (Hp : 0 < 2 ^ (w - 1)) by (apply Z.pow_pos_nonneg; lia).
  pose proof (Z.mod_pos_bound (z + 2 ^ (w - 1)) (2 ^ w) ltac:(lia)). lia.
Qed.

Lemma int32_range z : is_int32 (int32 z).
Proof. exact (wrap_signed_range 32 z eq_refl). Qed.

(** A signed value survives the trip through its unsigned wire form. *)
Lemma int32_uint32 z : is_int32 z -> int32 (uint32 z) = z.
Proof.
  unfold is_int32, int32, uint32, wrap_signed, wrap_unsigned. intros H.
  change (2 ^ (32 - 1)) with (2 ^ 31).
  destruct (Z_lt_le_dec z 0) as [Hn | Hp].
  - replace (z mod 2 ^ 32) with (z + 2 ^ 32).
    + replace (z + 2 ^ 32 + 2 ^ 31) with (z + 2 ^ 31 + 1 * 2 ^ 32) by lia.
      rewrite Z.mod_add by lia. rewrite Z.mod_small; lia.
    + apply Z.mod_unique with (q := -1); lia.
  - rewrite (Z.mod_small z) by lia. rewrite Z.mod_small; lia.
Qed.

Lemma uint32_small z : is_uint32 z -> uint32 z = z.
Proof. intros H. apply Z.mod_small. exact H. Qed.

Lemma uint64_small z : is_uint64 z -> uint64 z = z.
Proof. intros H. apply Z.mod_small. exact H. Qed.

(** The quotient of an int32 by a positive constant needs no wrap. *)
Lemma int32_div_quot x y :
  is_int32 x -> 0 < y -> int32_div x y = Z.quot x y.
Proof.
  intros Hx Hy. unfold int32_div. apply int32_small.
  unfold is_int32 in *.
  destruct (Z_lt_le_dec x 0) as [Hn | Hp].
  - assert (H0 : Z.quot x y <= 0) by (apply Z.quot_le_upper_bound; lia).
    assert (H1 : x <= Z.quot x y).
    { rewrite <- (Z.opp_involutive x) at 2.
      rewrite Z.quot_opp_l by lia.
      assert (Z.quot (- x) y <= - x) by (apply Z.quot_le_upper_bound; nia).
      lia. }
    lia.
  - assert (0 <= Z.quot x y) by (apply Z.quot_pos; lia).
    assert (Z.quot x y <= x) by (apply Z.quot_le_upper_bound; nia).
    lia.
Qed.

End GoIntFacts.

(** ** Package doge *)

Module DogeFacts.
Import GoInt GoIntFacts Doge.

Lemma land_flag_cases v : Z.land v 0x100 = 0 \/ Z.land v 0x100 = 0x100.
Proof.
  change 0x100 with (Z.shiftl 1 8) at 1 3.
  destruct (Z.testbit v 8) eqn:Hb; [right | left];
    apply Z.bits_inj'; intros n Hn;
    rewrite Z.land_spec;
    change (Z.shiftl 1 8) with (2 ^ 8);
    destruct (Z.eq_dec n 8) as [-> | Hne].
  - rewrite Hb. reflexivity.
  - rewrite (Z.pow2_bits_false 8 n) by lia.
    change 0x100 with (2 ^ 8). rewrite (Z.pow2_bits_false 8 n) by lia.
    apply andb_false_r.
  - rewrite Hb. rewrite Z.bits_0. reflexivity.
  - rewrite (Z.pow2_bits_false 8 n) by lia. rewrite Z.bits_0.
    apply andb_false_r.
Qed.

Lemma int32_and_flag v :
  int32_and v blockVersionFlagAuxpow = Z.land v 0x100.
Proof.
  unfold int32_and, blockVersionFlagAuxpow. apply int32_small.
  unfold is_int32. destruct (land_flag_cases v) as [-> | ->]; lia.
Qed.

(** C5.  For every 32-bit signed version [v], [IsAuxPoWBlockVersion v]
    is true exactly when [v >= 0x00620002] and [v & 0x100] is not zero;
    it is true at 0x00620102 and false at 0x00620002 and at 0x00000102. *)
Theorem IsAuxPoWBlockVersion_spec (v : Z) (Hv : is_int32 v) :
  (IsAuxPoWBlockVersion v = true <-> (0x00620002 <= v /\ Z.land v 0x100 <> 0))
  /\ IsAuxPoWBlockVersion 0x00620102 = true
  /\ IsAuxPoWBlockVersion 0x00620002 = false
  /\ IsAuxPoWBlockVersion 0x00000102 = false.
Proof.
  split; [| repeat split; reflexivity].
  unfold IsAuxPoWBlockVersion. rewrite int32_and_flag.
  rewrite andb_true_iff, Z.leb_le, Z.ltb_lt.
  unfold blockMinVersionAuxpow.
  destruct (land_flag_cases v) as [H | H]; rewrite H; split; intros [H1 H2];
    split; try assumption; lia.
Qed.

Lemma IsAuxPoWBlockVersion_spec_witness :
  is_int32 0x00620102
  /\ (IsAuxPoWBlockVersion 0x00620102 = true
      <-> (0x00620002 <= 0x00620102 /\ Z.land 0x00620102 0x100 <> 0)).
Proof.
  assert (H : is_int32 0x00620102) by (unfold is_int32; lia).
  split; [exact H | exact (proj1 (IsAuxPoWBlockVersion_spec 0x00620102 H))].
Defined.

(** C6.  For every 32-bit signed version [v], negative ones included,
    [GetBaseVersion v] is the remainder of the division of [v] by 256
    that truncates toward zero: it is [v mod 256] for [v >= 0] and
    [-((-v) mod 256)] for [v < 0]; at 0x00620102 it is 2. *)
Theorem GetBaseVersion_spec (v : Z) (Hv : is_int32 v) :
  GetBaseVersion v = Z.rem v 256
  /\ v = 256 * Z.quot v 256 + GetBaseVersion v
  /\ (0 <= v -> GetBaseVersion v = v mod 256)
  /\ (v < 0 -> GetBaseVersion v = - ((- v) mod 256))
  /\ GetBaseVersion 0x00620102 = 2.
Proof.
  assert (E : GetBaseVersion v = Z.rem v 256).
  { unfold GetBaseVersion, int32_rem.
    change versionAuxPow with 256. apply int32_small.
    unfold is_int32 in *.
    destruct (Z_lt_le_dec v 0) as [Hn | Hp].
    - assert (Z.rem v 256 = - Z.rem (- v) 256)
        by (rewrite Z.rem_opp_l by lia; lia).
      pose proof (Z.rem_bound_pos (- v) 256 ltac:(lia) ltac:(lia)). lia.
    - pose proof (Z.rem_bound_pos v 256 ltac:(lia) ltac:(lia)). lia. }
  rewrite E. repeat split.
  - apply Z.quot_rem'.
  - intros Hp. apply Z.rem_mod_nonneg; lia.
  - intros Hn. rewrite <- (Z.opp_involutive v) at 1.
    rewrite Z.rem_opp_l by lia. f_equal. apply Z.rem_mod_nonneg; lia.
Qed.

Lemma GetBaseVersion_spec_witness :
  is_int32 (-1) /\ GetBaseVersion (-1) = Z.rem (-1) 256.
Proof.
  assert (H : is_int32 (-1)) by (unfold is_int32; lia).
  split; [exact H | exact (proj1 (GetBaseVersion_spec (-1) H))].
Defined.

(** *** The subsidy schedule *)

Lemma quot_small_neg h d : - d < h <= 0 -> Z.quot h d = 0.
Proof.
  intros H. rewrite <- (Z.opp_involutive h).
  rewrite Z.quot_opp_l by lia.
  rewrite Z.quot_small by lia. reflexivity.
Qed.

(** The shift count below height 600000. *)
Lemma shift_count_cases h :
  -99999 <= h < 600000 ->
  let q := int32_div h subsidyDecreaseBlockCount in
  q = Z.quot h 100000
  /\ 0 <= q <= 5
  /\ (h < 100000 -> q = 0)
  /\ (100000 <= h < 145000 -> q = 1).
Proof.
  intros H q.
  assert (Eq : q = Z.quot h 100000).
  { unfold q, subsidyDecreaseBlockCount. apply int32_div_quot;
      unfold is_int32; lia. }
  rewrite Eq. split; [reflexivity |].
  destruct (Z_lt_le_dec h 0) as [Hn | Hp].
  - rewrite quot_small_neg by lia. lia.
  - rewrite Z.quot_div_nonneg by lia.
    pose proof (Z.div_mod h 100000 ltac:(lia)).
    pose proof (Z.mod_pos_bound h 100000 ltac:(lia)). lia.
Qed.

Lemma shl_baseSubsidy q :
  0 <= q <= 5 ->
  int64_shl baseSubsidy q = Some (Z.shiftl 50000000000000 q)
  /\ int64_mul (Z.shiftl 50000000000000 q) 2 = Z.shiftl 50000000000000 q * 2.
Proof.
  intros H.
  assert (C : q = 0 \/ q = 1 \/ q = 2 \/ q = 3 \/ q = 4 \/ q = 5) by lia.
  destruct C as [-> | [-> | [-> | [-> | [-> | ->]]]]];
    split; reflexivity.
Qed.

(** C4.  With the truncating quotient [h ÷ 100000]: below height 145000
    the subsidy is [(50_000_000_000_000 << (h ÷ 100000)) * 2], from
    145000 and below 600000 it is [50_000_000_000_000 << (h ÷ 100000)],
    and from 600000 on it is [50_000_000_000_000]. *)
Theorem CalcBlockSubsidy_schedule (h : Z) :
  (0 <= h < 145000 ->
   CalcBlockSubsidy h = Some (Z.shiftl 50000000000000 (Z.quot h 100000) * 2))
  /\ (145000 <= h < 600000 ->
      CalcBlockSubsidy h = Some (Z.shiftl 50000000000000 (Z.quot h 100000)))
  /\ (600000 <= h -> CalcBlockSubsidy h = Some 50000000000000).
Proof.
  unfold CalcBlockSubsidy, digishieldBlockHeight. repeat split; intros H.
  - destruct (shift_count_cases h ltac:(lia)) as (Eq & Hq & _).
    destruct (shl_baseSubsidy _ Hq) as (E1 & E2).
    destruct (Z.ltb_spec h 145000); [| lia].
    rewrite E1, E2, Eq. reflexivity.
  - destruct (shift_count_cases h ltac:(lia)) as (Eq & Hq & _).
    destruct (shl_baseSubsidy _ Hq) as (E1 & _).
    destruct (Z.ltb_spec h 145000); [lia |].
    destruct (Z.ltb_spec h 600000); [| lia].
    rewrite E1, Eq. reflexivity.
  - destruct (Z.ltb_spec h 145000); [lia |].
    destruct (Z.ltb_spec h 600000); [lia |]. reflexivity.
Qed.

Lemma CalcBlockSubsidy_schedule_witness :
  CalcBlockSubsidy 123456 = Some (Z.shiftl 50000000000000 (Z.quot 123456 100000) * 2)
  /\ CalcBlockSubsidy 345678 = Some (Z.shiftl 50000000000000 (Z.quot 345678 100000))
  /\ CalcBlockSubsidy 700000 = Some 50000000000000.
Proof.
  split; [| split].
  - apply (proj1 (CalcBlockSubsidy_schedule 123456)). lia.
  - apply (proj1 (proj2 (CalcBlockSubsidy_schedule 345678))). lia.
  - apply (proj2 (proj2 (CalcBlockSubsidy_schedule 700000))). lia.
Defined.

(** The schedule doubles with each 100000 blocks up to height 599999. *)
Lemma CalcBlockSubsidy_values :
  CalcBlockSubsidy 0 = Some 100000000000000
  /\ CalcBlockSubsidy 99999 = Some 100000000000000
  /\ CalcBlockSubsidy 100000 = Some 200000000000000
  /\ CalcBlockSubsidy 599999 = Some (Z.shiftl 50000000000000 5)
  /\ CalcBlockSubsidy 600000 = Some 50000000000000.
Proof. repeat split; reflexivity. Qed.

(** C3, as the spec states it, does not hold: 144999 ÷ 100000 and
    145000 ÷ 100000 are both 1, not 0. *)
Lemma CalcBlockSubsidy_fork_claim_fails :
  ~ (CalcBlockSubsidy 144999 = Some 100000000000000
     /\ CalcBlockSubsidy 145000 = Some 50000000000000).
Proof. intros [H _]. vm_compute in H. discriminate H. Qed.

(** C3, amended.  [CalcBlockSubsidy 144999] is 200_000_000_000_000, that
    is [(50_000_000_000_000 << 1) * 2], and [CalcBlockSubsidy 145000] is
    100_000_000_000_000, that is [50_000_000_000_000 << 1]: the subsidy
    halves at the fork height. *)
Theorem CalcBlockSubsidy_fork_heights :
  CalcBlockSubsidy 144999 = Some 200000000000000
  /\ CalcBlockSubsidy 145000 = Some 100000000000000.
Proof. split; reflexivity. Qed.

(** C10.  From height -99999 on the shift count is not negative, so that
    [CalcBlockSubsidy] does not panic; at the heights -99999 .. -1 it
    returns 100_000_000_000_000, its value at height 0. *)
Theorem CalcBlockSubsidy_no_negative_shift (h : Z)
        (Hh : is_int32 h) (Hlo : -99999 <= h) :
  0 <= int32_div h subsidyDecreaseBlockCount
  /\ (exists v, CalcBlockSubsidy h = Some v)
  /\ (h <= -1 ->
      CalcBlockSubsidy h = Some 100000000000000
      /\ CalcBlockSubsidy h = CalcBlockSubsidy 0).
Proof.
  assert (Hq : 0 <= int32_div h subsidyDecreaseBlockCount).
  { unfold subsidyDecreaseBlockCount. rewrite int32_div_quot by (trivial; lia).
    destruct (Z_lt_le_dec h 0).
    - rewrite quot_small_neg; lia.
    - apply Z.quot_pos; lia. }
  split; [exact Hq |]. split.
  - destruct (Z_lt_le_dec h 600000) as [Hs | Hb].
    + destruct (shift_count_cases h ltac:(lia)) as (_ & Hq5 & _).
      destruct (shl_baseSubsidy _ Hq5) as (E1 & _).
      unfold CalcBlockSubsidy. rewrite E1.
      destruct (h <? digishieldBlockHeight); [| destruct (h <? 600000)];
        eexists; reflexivity.
    + exists 50000000000000.
      unfold CalcBlockSubsidy, digishieldBlockHeight.
      destruct (Z.ltb_spec h 145000); [lia |].
      destruct (Z.ltb_spec h 600000); [lia | reflexivity].
  - intros Hneg.
    destruct (shift_count_cases h ltac:(lia)) as (_ & _ & H0 & _).
    assert (E : CalcBlockSubsidy h = Some 100000000000000).
    { unfold CalcBlockSubsidy, digishieldBlockHeight.
      destruct (Z.ltb_spec h 145000); [| lia].
      rewrite H0 by lia. reflexivity. }
    split; [exact E | rewrite E; reflexivity].
Qed.

Lemma CalcBlockSubsidy_no_negative_shift_witness :
  is_int32 (-99999) /\ -99999 <= -99999
  /\ CalcBlockSubsidy (-99999) = Some 100000000000000.
Proof.
  assert (H : is_int32 (-99999)) by (unfold is_int32; lia).
  assert (L : -99999 <= -99999) by lia.
  split; [exact H |]. split; [exact L |].
  apply (proj2 (proj2 (CalcBlockSubsidy_no_negative_shift (-99999) H L))). lia.
Defined.

(** Below height -99999 the shift count is negative and the shift panics. *)
Lemma CalcBlockSubsidy_panics h :
  is_int32 h -> h <= -100000 -> CalcBlockSubsidy h = None.
Proof.
  intros Hh Hlo. unfold CalcBlockSubsidy, digishieldBlockHeight.
  destruct (Z.ltb_spec h 145000); [| lia].
  unfold subsidyDecreaseBlockCount. rewrite int32_div_quot by (trivial; lia).
  assert (Hq : Z.quot h 100000 < 0).
  { rewrite <- (Z.opp_involutive h). rewrite Z.quot_opp_l by lia.
    assert (1 <= Z.quot (- h) 100000).
    { rewrite Z.quot_div_nonneg by lia.
      apply Z.div_le_lower_bound; lia. }
    lia. }
  unfold int64_shl. destruct (Z.ltb_spec (Z.quot h 100000) 0); [reflexivity | lia].
Qed.

End DogeFacts.

(** ** Package wire *)

Module WireFacts.
Import GoInt GoIntFacts Wire Valid.

(** *** Reading what was written *)

Lemma io_ReadFull_app (n : nat) (a : list byte) (r : reader) :
  length a = n -> io_ReadFull n (a ++ r) = (None, a, r).
Proof.
  intros <-. unfold io_ReadFull.
  rewrite length_app.
  replace (length a <=? length a + length r)%nat with true
    by (symmetry; apply Nat.leb_le; lia).
  rewrite firstn_app, Nat.sub_diag, firstn_all, app_nil_r.
  rewrite skipn_app, Nat.sub_diag, skipn_all. reflexivity.
Qed.

Lemma binarySerializer_Uint_split (n : nat) (v : Z) (r : reader) :
  binarySerializer_Uint n (le_split n v ++ r)
  = (None, v mod 2 ^ (Z.of_nat n * 8), r).
Proof.
  unfold binarySerializer_Uint.
  rewrite io_ReadFull_app by apply length_le_split.
  rewrite le_combine_split. reflexivity.
Qed.

Lemma WriteVarInt_app (w : writer) (pver val : Z) :
  WriteVarInt w pver val = (None, w ++ snd (WriteVarInt [] pver val)).
Proof.
  unfold WriteVarInt.
  repeat match goal with |- context [if ?c then _ else _] => destruct c end;
    reflexivity.
Qed.

Lemma length_WriteVarInt (pver val : Z) :
  length (snd (WriteVarInt [] pver val)) = VarIntSerializeSize val.
Proof.
  unfold WriteVarInt, VarIntSerializeSize.
  repeat match goal with |- context [if ?c then _ else _] => destruct c end;
    reflexivity.
Qed.

Lemma byte_unsigned_of_Z_small v : 0 <= v < 256 -> byte.unsigned (byte.of_Z v) = v.
Proof.
  intros H. rewrite byte.unsigned_of_Z. unfold byte.wrap.
  apply Z.mod_small. lia.
Qed.

(** A count written by [WriteVarInt] is read back by [ReadVarInt]. *)
Lemma ReadVarInt_WriteVarInt (pver pver' val : Z) (r : reader) :
  is_uint64 val ->
  ReadVarInt (snd (WriteVarInt [] pver val) ++ r) pver' = (None, val, r).
Proof.
  unfold is_uint64. intros Hv. unfold WriteVarInt, ReadVarInt.
  destruct (Z.ltb_spec val 0xfd) as [H1 | H1].
  - cbn [snd app]. unfold binarySerializer_Uint8.
    rewrite binarySerializer_Uint_split.
    change (2 ^ (Z.of_nat 1 * 8)) with 256.
    rewrite Z.mod_small by lia.
    destruct (Z.eqb_spec val 0xff); [lia |].
    destruct (Z.eqb_spec val 0xfe); [lia |].
    destruct (Z.eqb_spec val 0xfd); [lia |]. reflexivity.
  - destruct (Z.leb_spec val 0xffff) as [H2 | H2];
      [| destruct (Z.leb_spec val 0xffffffff) as [H3 | H3]];
      cbn [snd app];
      unfold binarySerializer_Uint8, binarySerializer_Uint at 1;
      cbn [io_ReadFull length Nat.leb firstn skipn].
    + change (le_combine [byte.of_Z 253]) with 253. cbn [Z.eqb Pos.eqb].
      unfold binarySerializer_Uint16. rewrite binarySerializer_Uint_split.
      rewrite Z.mod_small by (cbn; lia). reflexivity.
    + change (le_combine [byte.of_Z 254]) with 254. cbn [Z.eqb Pos.eqb].
      unfold binarySerializer_Uint32. rewrite binarySerializer_Uint_split.
      rewrite Z.mod_small by (cbn; lia). reflexivity.
    + change (le_combine [byte.of_Z 255]) with 255. cbn [Z.eqb Pos.eqb].
      unfold binarySerializer_Uint64. rewrite binarySerializer_Uint_split.
      rewrite Z.mod_small by (cbn; lia). reflexivity.
Qed.

Lemma overwrite_all (old new : list byte) :
  (length old <= length new)%nat -> overwrite old new = new.
Proof.
  intros H. unfold overwrite. rewrite skipn_all2 by exact H. apply app_nil_r.
Qed.

Lemma readElement_Hash_app (e h : Hash) (r : reader) :
  wf_Hash h -> (length e <= HashSize)%nat ->
  readElement_Hash e (h ++ r) = (None, h, r).
Proof.
  unfold wf_Hash. intros Hh He. unfold readElement_Hash.
  rewrite io_ReadFull_app by exact Hh.
  rewrite overwrite_all by lia. reflexivity.
Qed.

Lemma readElement_int32_split (e v : Z) (r : reader) :
  is_int32 v -> readElement_int32 e (le_split 4 (uint32 v) ++ r) = (None, v, r).
Proof.
  intros Hv. unfold readElement_int32, binarySerializer_Uint32.
  rewrite binarySerializer_Uint_split.
  change (uint32 v mod 2 ^ (Z.of_nat 4 * 8)) with (uint32 (uint32 v)).
  unfold uint32 at 1, wrap_unsigned. rewrite Z.mod_small
    by (unfold uint32, wrap_unsigned; apply Z.mod_pos_bound; lia).
  rewrite int32_uint32 by exact Hv. reflexivity.
Qed.

Lemma readElement_uint32_split (e v : Z) (r : reader) :
  is_uint32 v -> readElement_uint32 e (le_split 4 v ++ r) = (None, v, r).
Proof.
  intros Hv. unfold readElement_uint32, binarySerializer_Uint32.
  rewrite binarySerializer_Uint_split.
  rewrite Z.mod_small by exact Hv. reflexivity.
Qed.

Lemma readElement_uint32Time_split (e : Time) (v : Z) (r : reader) :
  is_uint32 v ->
  readElement_uint32Time e (le_split 4 v ++ r) = (None, time_Unix v, r).
Proof.
  intros Hv. unfold readElement_uint32Time, binarySerializer_Uint32.
  rewrite binarySerializer_Uint_split.
  rewrite Z.mod_small by exact Hv. reflexivity.
Qed.

(** The bitmask read consumes four bytes and stores nothing. *)
Lemma readElement_int32_byValue_consumes (e : Z) (b : list byte) (r : reader) :
  length b = 4%nat ->
  readElement_int32_byValue e (b ++ r) = (Some ErrInvalidType, e, r).
Proof.
  intros Hb. unfold readElement_int32_byValue.
  rewrite io_ReadFull_app by exact Hb. reflexivity.
Qed.

Lemma readElement_int32_byValue_keeps (e : Z) (r : reader) :
  snd (fst (readElement_int32_byValue e r)) = e.
Proof.
  unfold readElement_int32_byValue.
  destruct (io_ReadFull 4 r) as [[[err |] buf] r']; reflexivity.
Qed.

(** *** What the encoder writes *)

Section Codec.
Variable codec : TxCodec.

Lemma writeBlockHeader_bytes (w : writer) (pver : Z) (pb : ParentBlock) :
  writeBlockHeader w pver (ToBlockHeader codec pb) true
  = (None,
     w ++ le_split 4 (uint32 (Version pb)) ++ PrevBlock pb ++ MerkleRoot pb
       ++ le_split 4 (uint32 (Time_Unix (Timestamp pb)))
       ++ le_split 4 (Bits pb) ++ le_split 4 (Nonce pb)).
Proof.
  unfold writeBlockHeader, ToBlockHeader. cbn -[le_split uint32].
  repeat rewrite <- app_assoc. reflexivity.
Qed.

(** The bytes the loop of [writeMerkleBranch] writes: [pver] once per
    link hash, and no byte of any hash. *)
Lemma writeMerkleBranch_loop (pver : Z) (hs : list Hash) (w : writer) :
  fold_left
    (fun w hash => snd (writeElements w [E_uint32 pver; E_HashPtrPtr hash]))
    hs w
  = w ++ flat_map (fun _ => le_split 4 pver) hs.
Proof.
  revert w. induction hs as [| h hs IH]; intros w.
  - cbn. symmetry. apply app_nil_r.
  - cbn [fold_left flat_map]. rewrite IH.
    cbn [writeElements writeElement snd]. rewrite <- app_assoc. reflexivity.
Qed.

Lemma writeMerkleBranch_bytes (w : writer) (pver : Z) (mb : MerkleBranch) :
  writeMerkleBranch w pver mb
  = w ++ snd (WriteVarInt [] pver (uint64 (Z.of_nat (length (LinkHashes mb)))))
      ++ flat_map (fun _ => le_split 4 pver) (LinkHashes mb)
      ++ le_split 4 (uint32 (BranchSidesBitmask mb)).
Proof.
  unfold writeMerkleBranch. rewrite WriteVarInt_app. cbn [snd].
  rewrite writeMerkleBranch_loop. cbn [writeElements writeElement snd].
  repeat rewrite <- app_assoc. reflexivity.
Qed.

Lemma length_flat_map_const {A} (l : list A) (b : list byte) :
  length (flat_map (fun _ => b) l) = (length l * length b)%nat.
Proof.
  induction l as [| a l IH]; cbn [flat_map length]; [reflexivity |].
  rewrite length_app, IH. lia.
Qed.

(** The size of an encoded branch of [N] hashes: the count, four bytes
    per hash, four bytes of bitmask. *)
Lemma writeMerkleBranch_size (pver : Z) (mb : MerkleBranch) :
  length (writeMerkleBranch [] pver mb)
  = (VarIntSerializeSize (uint64 (Z.of_nat (length (LinkHashes mb))))
     + 4 * length (LinkHashes mb) + 4)%nat.
Proof.
  rewrite writeMerkleBranch_bytes. cbn [app].
  rewrite !length_app, length_WriteVarInt, length_flat_map_const.
  rewrite !length_le_split. lia.
Qed.


(** *** What the decoder reads *)

(** A valid parent header is read back from what [writeBlockHeader]
    wrote for it. *)
Lemma ParentBlock_BtcDecode_writeBlockHeader
      (pver : Z) (pb pb0 : ParentBlock) (rest : reader) :
  wf_ParentBlock pb ->
  (length (PrevBlock pb0) <= HashSize)%nat ->
  (length (MerkleRoot pb0) <= HashSize)%nat ->
  ParentBlock_BtcDecode
    pb0 (snd (writeBlockHeader [] pver (ToBlockHeader codec pb) true) ++ rest)
  = (None, pb, rest).
Proof.
  intros (Hv & Hp & Hm & (Hs & Hn) & Hb & Ho) Hp0 Hm0.
  rewrite writeBlockHeader_bytes. cbn [snd app].
  repeat rewrite <- app_assoc.
  unfold ParentBlock_BtcDecode, andThen, field.
  rewrite readElement_int32_split by exact Hv.
  cbn [PrevBlock set_Version].
  rewrite readElement_Hash_app by assumption.
  cbn [MerkleRoot set_PrevBlock].
  rewrite readElement_Hash_app by assumption.
  unfold Time_Unix. rewrite (uint32_small _ Hs).
  rewrite readElement_uint32Time_split by exact Hs.
  cbn [Bits set_Timestamp set_MerkleRoot].
  rewrite readElement_uint32_split by exact Hb.
  cbn [Nonce set_Bits].
  rewrite readElement_uint32_split by exact Ho.
  destruct pb as [v p m [s n] b o]. cbn in Hn. subst n. reflexivity.
Qed.

(** Whatever the stream holds, [readMerkleBranch] leaves the bitmask
    of its receiver as it found it. *)
Lemma readMerkleBranch_bitmask (pver : Z) (mb : MerkleBranch) (r : reader) :
  BranchSidesBitmask (snd (fst (readMerkleBranch pver mb r)))
  = BranchSidesBitmask mb.
Proof.
  unfold readMerkleBranch.
  destruct (ReadVarInt r pver) as [[[err |] count] r']; [reflexivity |].
  destruct (readLinkHashes (Z.to_nat count) [] r') as [[[err |] hs] r''];
    [reflexivity |].
  unfold field, ignoring, keep.
  destruct (readElement_int32_byValue _ r'') as [[e b] r3]. reflexivity.
Qed.

(** A branch without link hashes, as the encoder writes it, is read
    back without its bitmask. *)
Lemma readMerkleBranch_writeMerkleBranch_nil
      (pver bitmask : Z) (mb0 : MerkleBranch) (rest : reader) :
  readMerkleBranch
    pver mb0 (writeMerkleBranch [] pver (mkMerkleBranch [] bitmask) ++ rest)
  = (None, mkMerkleBranch [] (BranchSidesBitmask mb0), rest).
Proof.
  rewrite writeMerkleBranch_bytes. cbn [LinkHashes length flat_map app].
  unfold readMerkleBranch.
  change (uint64 (Z.of_nat 0)) with 0.
  repeat rewrite <- app_assoc.
  rewrite ReadVarInt_WriteVarInt by (unfold is_uint64; lia).
  cbn [Z.to_nat readLinkHashes BranchSidesBitmask app].
  unfold field, ignoring, keep.
  rewrite readElement_int32_byValue_consumes by apply length_le_split.
  reflexivity.
Qed.


(** The same for any four bytes in the place of the bitmask. *)
Lemma readMerkleBranch_nil
      (pver : Z) (mb0 : MerkleBranch) (b : list byte) (rest : reader) :
  length b = 4%nat ->
  readMerkleBranch pver mb0 (Byte.x00 :: b ++ rest)
  = (None, mkMerkleBranch [] (BranchSidesBitmask mb0), rest).
Proof.
  intros Hb. unfold readMerkleBranch.
  change (ReadVarInt (Byte.x00 :: b ++ rest) pver) with (@None error, 0, b ++ rest).
  cbn [Z.to_nat readLinkHashes]. unfold field, ignoring, keep.
  rewrite readElement_int32_byValue_consumes by exact Hb. reflexivity.
Qed.

(** The error of the transaction decode does not reach the caller:
    whatever [BtcDecode] returned, when the stream it left holds the
    rest of a header without link hashes, [readAuxBlockHeader] returns
    no error. *)
Lemma readAuxBlockHeader_after_tx
      (pver : Z) (bh : AuxBlockHeader (MsgTx codec)) (r r1 rest : reader)
      (e : option error) (tx' : MsgTx codec)
      (h b1 b2 : list byte) (pb : ParentBlock) :
  MsgTx_BtcDecode codec pver BaseEncoding (ParentCoinbase bh) r = (e, tx', r1) ->
  r1 = h ++ Byte.x00 :: b1 ++ Byte.x00 :: b2
         ++ snd (writeBlockHeader [] pver (ToBlockHeader codec pb) true) ++ rest ->
  wf_Hash h -> length b1 = 4%nat -> length b2 = 4%nat -> wf_ParentBlock pb ->
  (length (ParentBlockHash bh) <= HashSize)%nat ->
  (length (PrevBlock (ParentBlock_ bh)) <= HashSize)%nat ->
  (length (MerkleRoot (ParentBlock_ bh)) <= HashSize)%nat ->
  readAuxBlockHeader codec r pver bh
  = (None,
     mkAuxBlockHeader
       tx' h
       (mkMerkleBranch [] (BranchSidesBitmask (CoinbaseBranch bh)))
       (mkMerkleBranch [] (BranchSidesBitmask (BlockchainBranch bh)))
       pb,
     rest).
Proof.
  intros Htx -> Hh Hb1 Hb2 Hpb H0 H1 H2.
  unfold readAuxBlockHeader, andThen, ignoring, field.
  rewrite Htx. cbn [ParentBlockHash set_ParentCoinbase].
  rewrite readElement_Hash_app by assumption.
  cbn [CoinbaseBranch set_ParentBlockHash].
  replace (Byte.x00 :: b1 ++ Byte.x00 :: b2
             ++ snd (writeBlockHeader [] pver (ToBlockHeader codec pb) true) ++ rest)
    with (Byte.x00 :: b1 ++ (Byte.x00 :: b2
             ++ snd (writeBlockHeader [] pver (ToBlockHeader codec pb) true) ++ rest))
    by reflexivity.
  rewrite readMerkleBranch_nil by exact Hb1.
  cbn [BlockchainBranch set_CoinbaseBranch].
  rewrite readMerkleBranch_nil by exact Hb2.
  cbn [ParentBlock_ set_BlockchainBranch].
  rewrite ParentBlock_BtcDecode_writeBlockHeader by assumption.
  reflexivity.
Qed.

(** Nor do the errors of the reads after the second count: when the
    stream ends there, [readAuxBlockHeader] returns no error and the
    parent block of the receiver. *)
Lemma readAuxBlockHeader_truncated
      (pver : Z) (bh : AuxBlockHeader (MsgTx codec)) (r r1 : reader)
      (e : option error) (tx' : MsgTx codec) (h b1 : list byte) :
  MsgTx_BtcDecode codec pver BaseEncoding (ParentCoinbase bh) r = (e, tx', r1) ->
  r1 = h ++ Byte.x00 :: b1 ++ [Byte.x00] ->
  wf_Hash h -> length b1 = 4%nat ->
  (length (ParentBlockHash bh) <= HashSize)%nat ->
  readAuxBlockHeader codec r pver bh
  = (None,
     mkAuxBlockHeader
       tx' h
       (mkMerkleBranch [] (BranchSidesBitmask (CoinbaseBranch bh)))
       (mkMerkleBranch [] (BranchSidesBitmask (BlockchainBranch bh)))
       (ParentBlock_ bh),
     []).
Proof.
  intros Htx -> Hh Hb1 H0.
  unfold readAuxBlockHeader, andThen, ignoring, field.
  rewrite Htx. cbn [ParentBlockHash set_ParentCoinbase].
  rewrite readElement_Hash_app by assumption.
  cbn [CoinbaseBranch set_ParentBlockHash].
  rewrite readMerkleBranch_nil by exact Hb1.
  cbn [BlockchainBranch set_CoinbaseBranch].
  destruct bh as [t0 h0 c0 b0 [v p m ts bi no]]. reflexivity.
Qed.

(** The part of the round trip that holds: a valid header without
    link hashes comes back with its bitmasks cleared. *)
Lemma Deserialize_Serialize_no_links (x : AuxBlockHeader (MsgTx codec)) :
  tx_roundtrips codec 0 (ParentCoinbase x) ->
  wf_AuxBlockHeader x ->
  LinkHashes (CoinbaseBranch x) = [] ->
  LinkHashes (BlockchainBranch x) = [] ->
  Deserialize codec (AuxBlockHeader_zero codec) (snd (Serialize codec x []))
  = (None, clear_bitmasks x, []).
Proof.
  intros Htx (Hh & _ & _ & Hpb) Hc Hb.
  unfold Deserialize, Serialize, writeAuxBlockHeader.
  cbn [snd app writeElements writeElement].
  rewrite !writeMerkleBranch_bytes, Hc, Hb.
  rewrite writeBlockHeader_bytes.
  cbn [length Z.of_nat flat_map app].
  change (snd (WriteVarInt [] 0 (uint64 0))) with [Byte.x00].
  repeat rewrite <- app_assoc. cbn [app].
  erewrite readAuxBlockHeader_after_tx
    with (h := ParentBlockHash x) (pb := ParentBlock_ x) (rest := [])
         (b1 := le_split 4 (uint32 (BranchSidesBitmask (CoinbaseBranch x))))
         (b2 := le_split 4 (uint32 (BranchSidesBitmask (BlockchainBranch x)))).
  - unfold clear_bitmasks. rewrite Hc, Hb. reflexivity.
  - apply Htx.
  - rewrite writeBlockHeader_bytes. cbn [snd app].
    repeat rewrite <- app_assoc. rewrite app_nil_r. reflexivity.
  - exact Hh.
  - apply length_le_split.
  - apply length_le_split.
  - exact Hpb.
  - apply Nat.eq_le_incl. reflexivity.
  - apply Nat.eq_le_incl. reflexivity.
  - apply Nat.eq_le_incl. reflexivity.
Qed.

(** So such a header makes the round trip exactly when its bitmasks
    are 0. *)
Lemma roundtrips_no_links_iff (x : AuxBlockHeader (MsgTx codec)) :
  tx_roundtrips codec 0 (ParentCoinbase x) ->
  wf_AuxBlockHeader x ->
  LinkHashes (CoinbaseBranch x) = [] ->
  LinkHashes (BlockchainBranch x) = [] ->
  roundtrips codec x
  <-> (BranchSidesBitmask (CoinbaseBranch x) = 0
       /\ BranchSidesBitmask (BlockchainBranch x) = 0).
Proof.
  intros Htx Hwf Hc Hb. unfold roundtrips.
  rewrite (Deserialize_Serialize_no_links x Htx Hwf Hc Hb). split.
  - intros [rest E]. injection E as E _. rewrite <- E. split; reflexivity.
  - intros [E1 E2]. exists []. unfold clear_bitmasks.
    destruct x as [t h [l1 m1] [l2 m2] p]. cbn in *. subst. reflexivity.
Qed.

End Codec.



(** *** The claims on the header codec *)

(** C8.  [ToBlockHeader] copies the six fields of the parent header and
    sets the auxiliary payload to the empty [AuxBlockHeader]; no two
    parent headers have the same projection. *)
Theorem ToBlockHeader_fields (codec : TxCodec) (pb : ParentBlock) :
  bh_Version (ToBlockHeader codec pb) = Version pb
  /\ bh_PrevBlock (ToBlockHeader codec pb) = PrevBlock pb
  /\ bh_MerkleRoot (ToBlockHeader codec pb) = MerkleRoot pb
  /\ bh_Timestamp (ToBlockHeader codec pb) = Timestamp pb
  /\ bh_Bits (ToBlockHeader codec pb) = Bits pb
  /\ bh_Nonce (ToBlockHeader codec pb) = Nonce pb
  /\ bh_AuxData (ToBlockHeader codec pb) = AuxBlockHeader_zero codec
  /\ (forall pb', ToBlockHeader codec pb' = ToBlockHeader codec pb -> pb' = pb).
Proof.
  do 7 (split; [reflexivity |]).
  intros pb' E. destruct pb, pb'. unfold ToBlockHeader in E. cbn in E.
  injection E as -> -> -> -> -> ->. reflexivity.
Qed.

Lemma ToBlockHeader_fields_witness :
  ToBlockHeader BaseTx.codec (set_Nonce 12345 (set_Nonce 7 Sample.parent))
  = ToBlockHeader BaseTx.codec Sample.parent
  /\ set_Nonce 12345 (set_Nonce 7 Sample.parent) = Sample.parent.
Proof.
  assert (E : ToBlockHeader BaseTx.codec (set_Nonce 12345 (set_Nonce 7 Sample.parent))
              = ToBlockHeader BaseTx.codec Sample.parent) by reflexivity.
  split; [exact E |].
  exact (proj2 (proj2 (proj2 (proj2 (proj2 (proj2 (proj2
           (ToBlockHeader_fields BaseTx.codec Sample.parent)))))))
           (set_Nonce 12345 (set_Nonce 7 Sample.parent)) E).
Defined.

(** What a chain of decoding steps leaves untouched. *)
Lemma andThen_keeps {S X} (g : S -> X) (f1 f2 : Decoder S) :
  (forall s r, g (snd (fst (f1 s r))) = g s) ->
  (forall s r, g (snd (fst (f2 s r))) = g s) ->
  forall s r, g (snd (fst (andThen f1 f2 s r))) = g s.
Proof.
  intros H1 H2 s r. unfold andThen. specialize (H1 s r).
  destruct (f1 s r) as [[[e |] s'] r']; cbn [fst snd] in *; [exact H1 |].
  rewrite H2. exact H1.
Qed.

Lemma ignoring_keeps {S X} (g : S -> X) (f : Decoder S) :
  (forall s r, g (snd (fst (f s r))) = g s) ->
  forall s r, g (snd (fst (ignoring f s r))) = g s.
Proof.
  intros H s r. unfold ignoring. specialize (H s r).
  destruct (f s r) as [[e s'] r']. exact H.
Qed.

(** A step on another field. *)
Lemma field_keeps {S A X} (g : S -> X) (get : S -> A) (set : A -> S -> S)
      (f : Decoder A) :
  (forall a s, g (set a s) = g s) ->
  forall s r, g (snd (fst (field get set f s r))) = g s.
Proof.
  intros H s r. unfold field.
  destruct (f (get s) r) as [[e a] r']. apply H.
Qed.

(** A step on the field itself, when the step keeps [g] of the field. *)
Lemma field_keeps_within {S A X} (g : A -> X) (get : S -> A) (set : A -> S -> S)
      (f : Decoder A) :
  (forall a s, get (set a s) = a) ->
  (forall a r, g (snd (fst (f a r))) = g a) ->
  forall s r, g (get (snd (fst (field get set f s r)))) = g (get s).
Proof.
  intros Hgs H s r. unfold field. specialize (H (get s) r).
  destruct (f (get s) r) as [[e a] r']. cbn [fst snd] in *.
  rewrite Hgs. exact H.
Qed.

Ltac keeps_steps g :=
  repeat first
    [ apply (andThen_keeps g)
    | apply (ignoring_keeps g)
    | apply (field_keeps g); intros; reflexivity ].

(** On every stream and every receiver, with or without an error,
    [readAuxBlockHeader] leaves both bitmasks as the receiver had them. *)
Lemma readAuxBlockHeader_keeps_bitmasks
      (codec : TxCodec) (r : reader) (pver : Z)
      (bh : AuxBlockHeader (MsgTx codec)) :
  let bh' := snd (fst (readAuxBlockHeader codec r pver bh)) in
  BranchSidesBitmask (CoinbaseBranch bh') = BranchSidesBitmask (CoinbaseBranch bh)
  /\ BranchSidesBitmask (BlockchainBranch bh')
     = BranchSidesBitmask (BlockchainBranch bh).
Proof.
  cbv zeta. unfold readAuxBlockHeader. split.
  - revert bh r.
    keeps_steps (fun s : AuxBlockHeader (MsgTx codec) =>
                   BranchSidesBitmask (CoinbaseBranch s)).
    apply (field_keeps_within BranchSidesBitmask CoinbaseBranch);
      [intros; reflexivity | apply readMerkleBranch_bitmask].
  - revert bh r.
    keeps_steps (fun s : AuxBlockHeader (MsgTx codec) =>
                   BranchSidesBitmask (BlockchainBranch s)).
    apply (field_keeps_within BranchSidesBitmask BlockchainBranch);
      [intros; reflexivity | apply readMerkleBranch_bitmask].
Qed.

(** A receiver that held bitmasks keeps them. *)
Lemma readAuxBlockHeader_used_receiver :
  readAuxBlockHeader BaseTx.codec Sample.complete 0 Sample.used_receiver
  = (None, Sample.used_receiver, []).
Proof. vm_compute. reflexivity. Qed.

(** C9, as it is worded, does not hold: the decode of [Sample.complete]
    into a receiver that holds the bitmasks 7 and 9 returns no error and
    a header with the bitmasks 7 and 9. *)
Lemma readAuxBlockHeader_bitmasks_claim_fails :
  ~ (forall (r r' : reader) (bh bh' : AuxBlockHeader (MsgTx BaseTx.codec)),
        readAuxBlockHeader BaseTx.codec r 0 bh = (None, bh', r') ->
        BranchSidesBitmask (CoinbaseBranch bh') = 0
        /\ BranchSidesBitmask (BlockchainBranch bh') = 0).
Proof.
  intros H.
  destruct (H Sample.complete [] Sample.used_receiver Sample.used_receiver
              readAuxBlockHeader_used_receiver) as [E _].
  discriminate E.
Qed.

(** C9, amended.  When the decode returns no error, the bitmasks of both
    branches of the result are the ones the receiver held before the
    call, whatever bytes the stream held in their place; they are 0 when
    the receiver is a zero-valued [AuxBlockHeader]. *)
Theorem readAuxBlockHeader_bitmasks_of_receiver
        (codec : TxCodec) (r r' : reader) (pver : Z)
        (bh bh' : AuxBlockHeader (MsgTx codec)) :
  readAuxBlockHeader codec r pver bh = (None, bh', r') ->
  (BranchSidesBitmask (CoinbaseBranch bh') = BranchSidesBitmask (CoinbaseBranch bh)
   /\ BranchSidesBitmask (BlockchainBranch bh')
      = BranchSidesBitmask (BlockchainBranch bh))
  /\ (bh = AuxBlockHeader_zero codec ->
      BranchSidesBitmask (CoinbaseBranch bh') = 0
      /\ BranchSidesBitmask (BlockchainBranch bh') = 0).
Proof.
  intros E.
  pose proof (readAuxBlockHeader_keeps_bitmasks codec r pver bh) as H.
  rewrite E in H. cbn [fst snd] in H. split; [exact H |].
  intros ->. exact H.
Qed.

(** The stream [Sample.complete] carries the bitmasks 5 and 6. *)
Lemma readAuxBlockHeader_bitmasks_of_receiver_witness :
  readAuxBlockHeader BaseTx.codec Sample.complete 0 (AuxBlockHeader_zero BaseTx.codec)
  = (None, Sample.plain, [])
  /\ BranchSidesBitmask (CoinbaseBranch Sample.plain) = 0
  /\ BranchSidesBitmask (BlockchainBranch Sample.plain) = 0.
Proof.
  assert (E : readAuxBlockHeader BaseTx.codec Sample.complete 0
                                 (AuxBlockHeader_zero BaseTx.codec)
              = (None, Sample.plain, [])) by (vm_compute; reflexivity).
  split; [exact E |].
  exact (proj2 (readAuxBlockHeader_bitmasks_of_receiver
                  BaseTx.codec Sample.complete [] 0
                  (AuxBlockHeader_zero BaseTx.codec) Sample.plain E) eq_refl).
Defined.

Lemma sample_tx_roundtrips : tx_roundtrips BaseTx.codec 0 Sample.tx.
Proof. intros msg rest. vm_compute. reflexivity. Qed.

Lemma sample_wf :
  wf_AuxBlockHeader Sample.plain /\ wf_AuxBlockHeader Sample.with_bitmask
  /\ wf_AuxBlockHeader Sample.with_hash.
Proof.
  unfold wf_AuxBlockHeader, wf_MerkleBranch, wf_ParentBlock, wf_Time, wf_Hash,
    is_int32, is_uint32.
  cbn. repeat split; try lia; try reflexivity; repeat constructor.
Qed.

(** C1 at two valid headers.  With a bitmask of 1 the bytes of
    [Serialize] are read back as the header with bitmask 0; with one
    link hash they are not read back at all. *)
Theorem Deserialize_Serialize_differs :
  wf_AuxBlockHeader Sample.with_bitmask
  /\ Deserialize BaseTx.codec (AuxBlockHeader_zero BaseTx.codec)
                 (snd (Serialize BaseTx.codec Sample.with_bitmask []))
     = (None, Sample.plain, [])
  /\ Sample.plain <> Sample.with_bitmask
  /\ ~ roundtrips BaseTx.codec Sample.with_bitmask
  /\ wf_AuxBlockHeader Sample.with_hash
  /\ fst (fst (Deserialize BaseTx.codec (AuxBlockHeader_zero BaseTx.codec)
                           (snd (Serialize BaseTx.codec Sample.with_hash []))))
     = Some ErrUnexpectedEOF
  /\ ~ roundtrips BaseTx.codec Sample.with_hash.
Proof.
  assert (N : Sample.plain <> Sample.with_bitmask) by (intros E; discriminate E).
  split; [apply sample_wf |]. split; [vm_compute; reflexivity |].
  split; [exact N |]. split.
  - intros [rest E]. vm_compute in E. discriminate E.
  - split; [apply sample_wf |]. split; [vm_compute; reflexivity |].
    intros [rest E]. vm_compute in E. discriminate E.
Qed.

(** C2 at two streams.  [Sample.truncated] ends before the bitmask of the
    second branch and before the parent header: [Deserialize] returns no
    error and a header whose parent block is the zero value.  On
    [Sample.bad_tx] the transaction decode fails: [Deserialize] returns no
    error and a header whose transaction is the one the receiver held. *)
Theorem Deserialize_swallows_errors :
  Deserialize BaseTx.codec (AuxBlockHeader_zero BaseTx.codec) Sample.truncated
  = (None,
     mkAuxBlockHeader Sample.tx Sample.hashA (mkMerkleBranch [] 0)
                      (mkMerkleBranch [] 0) ParentBlock_zero,
     [])
  /\ fst (fst (BaseTx.BtcDecode 0 BaseEncoding BaseTx.MsgTx_zero Sample.bad_tx))
     = Some MessageError
  /\ Deserialize BaseTx.codec (AuxBlockHeader_zero BaseTx.codec) Sample.bad_tx
     = (None,
        mkAuxBlockHeader BaseTx.MsgTx_zero Sample.hashA (mkMerkleBranch [] 0)
                         (mkMerkleBranch [] 0) Sample.parent,
        []).
Proof. split; [| split]; vm_compute; reflexivity. Qed.

(** C7 at a branch of one link hash, written at protocol version 70001:
    nine bytes come out (the count, the protocol version, the
    bitmask), not 1 + 32 + 4, and the hash is not among them. *)
Theorem writeMerkleBranch_one_hash :
  writeMerkleBranch [] 70001 (mkMerkleBranch [Sample.hashA] 1)
  = Sample.bytes_of [1; 113; 17; 1; 0; 1; 0; 0; 0]
  /\ length (writeMerkleBranch [] 70001 (mkMerkleBranch [Sample.hashA] 1)) = 9%nat
  /\ (VarIntSerializeSize 1 + 32 * 1 + 4 = 37)%nat.
Proof. repeat split; vm_compute; reflexivity. Qed.

End WireFacts.

(** * Further properties *)

(** ** Package doge *)

Module DogeMore.
Import GoInt GoIntFacts Doge DogeFacts.

(** *** Versions *)

Lemma GetBaseVersion_rem (v : Z) : is_int32 v -> GetBaseVersion v = Z.rem v 256.
Proof.
  intros Hv. unfold GetBaseVersion, int32_rem.
  change versionAuxPow with 256. apply int32_small.
  unfold is_int32 in *.
  pose proof (Z.quot_rem' v 256).
  destruct (Z_lt_le_dec v 0) as [Hn | Hp].
  - assert (Z.rem v 256 = - Z.rem (- v) 256)
      by (rewrite Z.rem_opp_l by lia; lia).
    pose proof (Z.rem_bound_pos (- v) 256 ltac:(lia) ltac:(lia)). lia.
  - pose proof (Z.rem_bound_pos v 256 ltac:(lia) ltac:(lia)). lia.
Qed.

(** The truncating remainder against the floored one. *)
Lemma rem_256_mod (v : Z) :
  (0 <= v -> Z.rem v 256 = v mod 256)
  /\ (v < 0 -> v mod 256 = 0 -> Z.rem v 256 = 0)
  /\ (v < 0 -> v mod 256 <> 0 -> Z.rem v 256 = v mod 256 - 256).
Proof.
  pose proof (Z.quot_rem' v 256) as Hq.
  pose proof (Z.div_mod v 256 ltac:(lia)) as Hd.
  pose proof (Z.mod_pos_bound v 256 ltac:(lia)) as Hm.
  split; [intros Hp; apply Z.rem_mod_nonneg; lia |].
  assert (Hr : v < 0 -> -256 < Z.rem v 256 <= 0).
  { intros Hn.
    assert (Z.rem v 256 = - Z.rem (- v) 256)
      by (rewrite Z.rem_opp_l by lia; lia).
    pose proof (Z.rem_bound_pos (- v) 256 ltac:(lia) ltac:(lia)). lia. }
  split; intros Hn H0; specialize (Hr Hn); lia.
Qed.

(** X2.  For a version [v >= 0], [GetBaseVersion v] is the low byte
    [v & 0xff]; for a negative [v] it is 0 when the low byte is 0 and the
    low byte minus 256 otherwise. *)
Theorem GetBaseVersion_low_byte (v : Z) (Hv : is_int32 v) :
  (0 <= v -> GetBaseVersion v = Z.land v 0xff)
  /\ (v < 0 -> Z.land v 0xff = 0 -> GetBaseVersion v = 0)
  /\ (v < 0 -> Z.land v 0xff <> 0 -> GetBaseVersion v = Z.land v 0xff - 256).
Proof.
  rewrite (GetBaseVersion_rem v Hv).
  change 0xff with (Z.ones 8). rewrite Z.land_ones by lia.
  change (2 ^ 8) with 256. apply rem_256_mod.
Qed.

Lemma GetBaseVersion_low_byte_witness :
  is_int32 (-2) /\ -2 < 0 /\ Z.land (-2) 0xff <> 0
  /\ GetBaseVersion (-2) = Z.land (-2) 0xff - 256.
Proof.
  assert (H : is_int32 (-2)) by (unfold is_int32; lia).
  assert (N : -2 < 0) by lia.
  assert (L : Z.land (-2) 0xff <> 0) by (intros E; discriminate E).
  split; [exact H |]. split; [exact N |]. split; [exact L |].
  exact (proj2 (proj2 (GetBaseVersion_low_byte (-2) H)) N L).
Defined.

Lemma lor_flag_bound (v : Z) :
  0 <= v < 2 ^ 31 -> v <= Z.lor v 0x100 < 2 ^ 31.
Proof.
  intros Hv. split.
  - pose proof (Z.add_lor_land v 0x100) as A.
    destruct (land_flag_cases v) as [E | E]; rewrite E in A; lia.
  - assert (Hp : 0 < Z.lor v 0x100).
    { assert (0 <= Z.lor v 0x100) by (apply Z.lor_nonneg; lia).
      destruct (Z.eq_dec (Z.lor v 0x100) 0) as [E | E]; [| lia].
      apply Z.lor_eq_0_iff in E. lia. }
    apply (Z.log2_lt_pow2 _ _ Hp).
    rewrite Z.log2_lor by lia.
    change (Z.log2 0x100) with 8.
    destruct (Z.eq_dec v 0) as [-> | Hne]; [cbn; lia |].
    assert (Z.log2 v < 31) by (apply Z.log2_lt_pow2; lia). lia.
Qed.

(** X1.  Setting the AuxPoW flag in a version that is at least
    [blockMinVersionAuxpow] gives a 32-bit version that
    [IsAuxPoWBlockVersion] accepts and that has the base version of the
    original. *)
Theorem set_flag_IsAuxPoW (v : Z) (Hv : is_int32 v)
        (Hmin : blockMinVersionAuxpow <= v) :
  is_int32 (Z.lor v blockVersionFlagAuxpow)
  /\ IsAuxPoWBlockVersion (Z.lor v blockVersionFlagAuxpow) = true
  /\ GetBaseVersion (Z.lor v blockVersionFlagAuxpow) = GetBaseVersion v.
Proof.
  unfold blockMinVersionAuxpow, blockVersionFlagAuxpow, is_int32 in *.
  pose proof (lor_flag_bound v ltac:(lia)) as Hb.
  assert (Hi : is_int32 (Z.lor v 0x100)) by (unfold is_int32; lia).
  split; [exact Hi |]. split.
  - unfold IsAuxPoWBlockVersion. rewrite int32_and_flag.
    rewrite Z.land_lor_distr_l.
    change (Z.land 0x100 0x100) with 0x100.
    apply andb_true_intro. split.
    + apply Z.leb_le. unfold blockMinVersionAuxpow. lia.
    + apply Z.ltb_lt.
      assert (0 <= Z.land v 0x100) by (apply Z.land_nonneg; lia).
      pose proof (Z.add_lor_land (Z.land v 0x100) 0x100).
      assert (0 <= Z.land (Z.land v 0x100) 0x100) by (apply Z.land_nonneg; lia).
      assert (0 <= Z.lor (Z.land v 0x100) 0x100) by (apply Z.lor_nonneg; lia).
      destruct (Z.eq_dec (Z.lor (Z.land v 0x100) 0x100) 0) as [E | E]; [| lia].
      apply Z.lor_eq_0_iff in E. lia.
  - rewrite (GetBaseVersion_rem _ Hi), (GetBaseVersion_rem v Hv).
    rewrite !Z.rem_mod_nonneg by lia.
    change 256 with (2 ^ 8). rewrite <- !Z.land_ones by lia.
    rewrite Z.land_lor_distr_l.
    change (Z.land 0x100 (Z.ones 8)) with 0. apply Z.lor_0_r.
Qed.

Lemma set_flag_IsAuxPoW_witness :
  is_int32 0x00620002 /\ blockMinVersionAuxpow <= 0x00620002
  /\ IsAuxPoWBlockVersion 0x00620002 = false
  /\ IsAuxPoWBlockVersion (Z.lor 0x00620002 blockVersionFlagAuxpow) = true.
Proof.
  assert (H : is_int32 0x00620002) by (unfold is_int32; lia).
  assert (M : blockMinVersionAuxpow <= 0x00620002) by (unfold blockMinVersionAuxpow; lia).
  split; [exact H |]. split; [exact M |]. split; [reflexivity |].
  exact (proj1 (proj2 (set_flag_IsAuxPoW 0x00620002 H M))).
Defined.

(** *** Subsidy *)

(** X3.  [CalcBlockSubsidy] panics (a shift by a negative count) exactly
    at the heights [h <= -100000]. *)
Theorem CalcBlockSubsidy_panics_iff (h : Z) (Hh : is_int32 h) :
  CalcBlockSubsidy h = None <-> h <= -100000.
Proof.
  split; [| apply CalcBlockSubsidy_panics; exact Hh].
  intros E. destruct (Z_le_gt_dec h (-100000)) as [Hl | Hg]; [exact Hl | exfalso].
  destruct (Z_lt_le_dec h 600000) as [Hs | Hb].
  - destruct (shift_count_cases h ltac:(lia)) as (_ & Hq5 & _).
    destruct (shl_baseSubsidy _ Hq5) as (E1 & _).
    unfold CalcBlockSubsidy in E. rewrite E1 in E.
    destruct (h <? digishieldBlockHeight); [| destruct (h <? 600000)];
      discriminate E.
  - unfold CalcBlockSubsidy, digishieldBlockHeight in E.
    destruct (Z.ltb_spec h 145000); [lia |].
    destruct (Z.ltb_spec h 600000); [lia | discriminate E].
Qed.

Lemma CalcBlockSubsidy_panics_iff_witness :
  is_int32 (-100000) /\ CalcBlockSubsidy (-100000) = None.
Proof.
  assert (H : is_int32 (-100000)) by (unfold is_int32; lia).
  split; [exact H |].
  apply (proj2 (CalcBlockSubsidy_panics_iff (-100000) H)). lia.
Defined.

Lemma shiftl_succ (q : Z) :
  0 <= q -> Z.shiftl 50000000000000 (q + 1) = 2 * Z.shiftl 50000000000000 q.
Proof.
  intros Hq. rewrite !Z.shiftl_mul_pow2 by lia.
  rewrite Z.pow_add_r by lia. lia.
Qed.

(** The value of [CalcBlockSubsidy] between -99999 and 599999. *)
Lemma CalcBlockSubsidy_shift (h : Z) :
  -99999 <= h < 600000 ->
  CalcBlockSubsidy h
  = Some (if h <? 145000
          then Z.shiftl 50000000000000 (Z.quot h 100000) * 2
          else Z.shiftl 50000000000000 (Z.quot h 100000)).
Proof.
  intros H. destruct (shift_count_cases h H) as (Eq & Hq & _).
  destruct (shl_baseSubsidy _ Hq) as (E1 & E2).
  unfold CalcBlockSubsidy, digishieldBlockHeight.
  rewrite E1. destruct (Z.ltb_spec h 145000).
  - rewrite E2, Eq. reflexivity.
  - destruct (Z.ltb_spec h 600000); [| lia]. rewrite Eq. reflexivity.
Qed.

(** X4.  Below height 45000, and from 145000 below 500000, the subsidy
    100000 blocks later is twice the subsidy at [h]. *)
Theorem CalcBlockSubsidy_doubles (h : Z)
        (Hh : 0 <= h < 45000 \/ 145000 <= h < 500000) :
  exists v, CalcBlockSubsidy h = Some v
            /\ CalcBlockSubsidy (h + 100000) = Some (2 * v).
Proof.
  assert (Hq : Z.quot (h + 100000) 100000 = Z.quot h 100000 + 1).
  { rewrite !Z.quot_div_nonneg by lia.
    replace (h + 100000) with (h + 1 * 100000) by lia.
    apply Z.div_add. lia. }
  assert (H0 : 0 <= Z.quot h 100000) by (apply Z.quot_pos; lia).
  rewrite !CalcBlockSubsidy_shift by lia. rewrite Hq, shiftl_succ by exact H0.
  destruct Hh as [Hh | Hh].
  - destruct (Z.ltb_spec h 145000); [| lia].
    destruct (Z.ltb_spec (h + 100000) 145000); [| lia].
    eexists. split; [reflexivity | f_equal; lia].
  - destruct (Z.ltb_spec h 145000); [lia |].
    destruct (Z.ltb_spec (h + 100000) 145000); [lia |].
    eexists. split; [reflexivity | f_equal; lia].
Qed.

Lemma CalcBlockSubsidy_doubles_witness :
  (0 <= 200000 < 45000 \/ 145000 <= 200000 < 500000)
  /\ exists v, CalcBlockSubsidy 200000 = Some v
               /\ CalcBlockSubsidy (200000 + 100000) = Some (2 * v).
Proof.
  assert (H : 0 <= 200000 < 45000 \/ 145000 <= 200000 < 500000) by lia.
  split; [exact H | exact (CalcBlockSubsidy_doubles 200000 H)].
Defined.

(** X5.  From height -99999 on the subsidy lies between [baseSubsidy]
    and [32 * baseSubsidy]; it is [32 * baseSubsidy] exactly on
    500000 .. 599999 and [baseSubsidy] exactly from 600000 on. *)
Theorem CalcBlockSubsidy_range (h : Z) (Hh : is_int32 h) (Hlo : -99999 <= h) :
  exists v, CalcBlockSubsidy h = Some v
            /\ baseSubsidy <= v <= 32 * baseSubsidy
            /\ (v = 32 * baseSubsidy <-> 500000 <= h < 600000)
            /\ (v = baseSubsidy <-> 600000 <= h).
Proof.
  unfold baseSubsidy.
  destruct (Z_lt_le_dec h 600000) as [Hs | Hb].
  - rewrite CalcBlockSubsidy_shift by lia.
    destruct (shift_count_cases h ltac:(lia)) as (Eq & Hq & Hq0 & Hq1).
    rewrite <- Eq. set (q := int32_div h subsidyDecreaseBlockCount) in *.
    assert (Hq5 : q = 5 <-> 500000 <= h).
    { subst q. rewrite Eq.
      destruct (Z_lt_le_dec h 0).
      - rewrite quot_small_neg by lia. lia.
      - rewrite Z.quot_div_nonneg by lia.
        pose proof (Z.div_mod h 100000 ltac:(lia)).
        pose proof (Z.mod_pos_bound h 100000 ltac:(lia)). lia. }
    eexists. split; [reflexivity |].
    destruct (Z.ltb_spec h 145000).
    + assert (C : q = 0 \/ q = 1)
        by (destruct (Z_lt_le_dec h 100000); [left; apply Hq0 | right; apply Hq1]; lia).
      destruct C as [C | C]; rewrite C; cbn; lia.
    + assert (C : q = 1 \/ q = 2 \/ q = 3 \/ q = 4 \/ q = 5) by
        (assert (q <> 0); [intros E0; subst q; rewrite Eq in E0;
                           rewrite Z.quot_div_nonneg in E0 by lia;
                           pose proof (Z.div_mod h 100000 ltac:(lia));
                           pose proof (Z.mod_pos_bound h 100000 ltac:(lia)); lia | lia]).
      destruct C as [C | [C | [C | [C | C]]]]; rewrite C in *; cbn; lia.
  - exists 50000000000000. split.
    + unfold CalcBlockSubsidy, digishieldBlockHeight.
      destruct (Z.ltb_spec h 145000); [lia |].
      destruct (Z.ltb_spec h 600000); [lia | reflexivity].
    + lia.
Qed.

Lemma CalcBlockSubsidy_range_witness :
  is_int32 599999 /\ -99999 <= 599999
  /\ exists v, CalcBlockSubsidy 599999 = Some v
               /\ baseSubsidy <= v <= 32 * baseSubsidy
               /\ (v = 32 * baseSubsidy <-> 500000 <= 599999 < 600000)
               /\ (v = baseSubsidy <-> 600000 <= 599999).
Proof.
  assert (H : is_int32 599999) by (unfold is_int32; lia).
  assert (L : -99999 <= 599999) by lia.
  split; [exact H |]. split; [exact L |].
  exact (CalcBlockSubsidy_range 599999 H L).
Defined.

End DogeMore.

(** ** Package wire *)

Module WireMore.
Import GoInt GoIntFacts Wire Valid Construct WireFacts.

(** *** How many bytes a decoder needs *)

Lemma io_ReadFull_short (n : nat) (r : reader) :
  (length r < n)%nat ->
  exists e, io_ReadFull n r = (Some e, r, [])
            /\ (e = EOF \/ e = ErrUnexpectedEOF)
            /\ (e = EOF <-> r = []).
Proof.
  intros H. unfold io_ReadFull.
  replace (n <=? length r)%nat with false by (symmetry; apply Nat.leb_gt; exact H).
  destruct r as [| b r].
  - exists EOF. repeat split; auto.
  - exists ErrUnexpectedEOF. repeat split; auto; intros E; discriminate E.
Qed.

Lemma io_ReadFull_enough (n : nat) (r : reader) :
  (n <= length r)%nat -> io_ReadFull n r = (None, firstn n r, skipn n r).
Proof.
  intros H. unfold io_ReadFull.
  replace (n <=? length r)%nat with true by (symmetry; apply Nat.leb_le; exact H).
  reflexivity.
Qed.

Lemma reads_exactly_Hash : reads_exactly 32 readElement_Hash.
Proof.
  intros e r. unfold readElement_Hash. change HashSize with 32%nat. split; intros H.
  - rewrite io_ReadFull_enough by exact H. split; reflexivity.
  - destruct (io_ReadFull_short 32 r H) as (err & -> & [-> | ->] & _); cbn; auto.
Qed.

Lemma binarySerializer_Uint32_cases (r : reader) :
  ((4 <= length r)%nat ->
   binarySerializer_Uint32 r = (None, le_combine (firstn 4 r), skipn 4 r))
  /\ ((length r < 4)%nat ->
      exists e, binarySerializer_Uint32 r = (Some e, 0, [])
                /\ (e = EOF \/ e = ErrUnexpectedEOF)).
Proof.
  unfold binarySerializer_Uint32, binarySerializer_Uint. split; intros H.
  - rewrite io_ReadFull_enough by exact H. reflexivity.
  - destruct (io_ReadFull_short 4 r H) as (err & -> & Hk & _).
    exists err. split; [reflexivity | exact Hk].
Qed.

Lemma reads_exactly_int32 : reads_exactly 4 readElement_int32.
Proof.
  intros e r. unfold readElement_int32.
  destruct (binarySerializer_Uint32_cases r) as [Hok Hko]. split; intros H.
  - rewrite (Hok H). split; reflexivity.
  - destruct (Hko H) as (err & -> & [-> | ->]); cbn; auto.
Qed.

Lemma reads_exactly_uint32 : reads_exactly 4 readElement_uint32.
Proof.
  intros e r. unfold readElement_uint32.
  destruct (binarySerializer_Uint32_cases r) as [Hok Hko]. split; intros H.
  - rewrite (Hok H). split; reflexivity.
  - destruct (Hko H) as (err & -> & [-> | ->]); cbn; auto.
Qed.

Lemma reads_exactly_uint32Time : reads_exactly 4 readElement_uint32Time.
Proof.
  intros e r. unfold readElement_uint32Time.
  destruct (binarySerializer_Uint32_cases r) as [Hok Hko]. split; intros H.
  - rewrite (Hok H). split; reflexivity.
  - destruct (Hko H) as (err & -> & [-> | ->]); cbn; auto.
Qed.

Lemma reads_exactly_field {S A} (n : nat) (get : S -> A) (set : A -> S -> S)
      (f : Decoder A) :
  reads_exactly n f -> reads_exactly n (field get set f).
Proof.
  intros Hf s r. specialize (Hf (get s) r). unfold field.
  destruct (f (get s) r) as [[e a] r']. exact Hf.
Qed.

Lemma reads_exactly_andThen {S} (a b : nat) (f g : Decoder S) :
  reads_exactly a f -> reads_exactly b g -> reads_exactly (a + b) (andThen f g).
Proof.
  intros Hf Hg s r. unfold andThen.
  destruct (Hf s r) as [Hok Hko].
  destruct (f s r) as [[e s'] r'] eqn:Ef. cbn [fst snd] in *.
  destruct (Nat.le_gt_cases a (length r)) as [Ha | Ha].
  - destruct (Hok Ha) as [-> ->].
    destruct (Hg s' (skipn a r)) as [Gok Gko].
    rewrite length_skipn in Gok, Gko. split; intros H.
    + destruct (Gok ltac:(lia)) as [G1 G2]. split; [exact G1 |].
      rewrite G2, skipn_skipn. f_equal. lia.
    + apply Gko. lia.
  - destruct (Hko Ha) as [He ->]. split; intros H; [lia |].
    destruct He as [-> | ->]; auto.
Qed.

Lemma reads_exactly_ParentBlock : reads_exactly 80 ParentBlock_BtcDecode.
Proof.
  unfold ParentBlock_BtcDecode.
  change 80%nat with (4 + 32 + 32 + 4 + 4 + 4)%nat.
  repeat apply reads_exactly_andThen; apply reads_exactly_field;
    first [ exact reads_exactly_int32 | exact reads_exactly_Hash
          | exact reads_exactly_uint32Time | exact reads_exactly_uint32 ].
Qed.

(** X6.  [ParentBlock.BtcDecode] needs exactly 80 bytes: with 80 bytes or more
    in the stream it returns no error and leaves what follows the first
    80; with fewer it returns [io.EOF] or [io.ErrUnexpectedEOF] and has
    consumed the whole stream. *)
Theorem ParentBlock_BtcDecode_needs_80 (pb : ParentBlock) (r : reader) :
  ((80 <= length r)%nat ->
   fst (fst (ParentBlock_BtcDecode pb r)) = None
   /\ snd (ParentBlock_BtcDecode pb r) = skipn 80 r)
  /\ ((length r < 80)%nat ->
      (fst (fst (ParentBlock_BtcDecode pb r)) = Some EOF
       \/ fst (fst (ParentBlock_BtcDecode pb r)) = Some ErrUnexpectedEOF)
      /\ snd (ParentBlock_BtcDecode pb r) = []).
Proof. exact (reads_exactly_ParentBlock pb r). Qed.

Lemma ParentBlock_BtcDecode_needs_80_witness :
  (80 <= length (Sample.parent_bytes ++ Sample.hashA))%nat
  /\ snd (ParentBlock_BtcDecode ParentBlock_zero (Sample.parent_bytes ++ Sample.hashA))
     = Sample.hashA
  /\ (length (firstn 79 Sample.parent_bytes) < 80)%nat
  /\ snd (ParentBlock_BtcDecode ParentBlock_zero (firstn 79 Sample.parent_bytes)) = [].
Proof.
  assert (H1 : (80 <= length (Sample.parent_bytes ++ Sample.hashA))%nat)
    by (vm_compute; lia).
  assert (H2 : (length (firstn 79 Sample.parent_bytes) < 80)%nat)
    by (vm_compute; lia).
  split; [exact H1 |]. split.
  - exact (proj2 (proj1 (ParentBlock_BtcDecode_needs_80
                           ParentBlock_zero (Sample.parent_bytes ++ Sample.hashA)) H1)).
  - split; [exact H2 |].
    exact (proj2 (proj2 (ParentBlock_BtcDecode_needs_80
                           ParentBlock_zero (firstn 79 Sample.parent_bytes)) H2)).
Defined.

(** X7.  What the 80 bytes become: the version is taken as a signed number,
    the time has whole seconds only, and the receiver's former contents
    are gone. *)
Theorem ParentBlock_BtcDecode_fields
        (pb0 : ParentBlock) (v t b n : Z) (prev root : Hash) (rest : reader) :
  wf_Hash prev -> wf_Hash root ->
  (length (PrevBlock pb0) <= HashSize)%nat ->
  (length (MerkleRoot pb0) <= HashSize)%nat ->
  ParentBlock_BtcDecode
    pb0 (le_split 4 v ++ prev ++ root ++ le_split 4 t ++ le_split 4 b
                  ++ le_split 4 n ++ rest)
  = (None,
     mkParentBlock (int32 (uint32 v)) prev root (mkTime (uint32 t) 0)
                   (uint32 b) (uint32 n),
     rest).
Proof.
  intros Hp Hr Hp0 Hr0.
  unfold ParentBlock_BtcDecode, andThen, field.
  unfold readElement_int32 at 1, binarySerializer_Uint32.
  rewrite binarySerializer_Uint_split.
  cbn [PrevBlock set_Version].
  rewrite readElement_Hash_app by assumption.
  cbn [MerkleRoot set_PrevBlock].
  rewrite readElement_Hash_app by assumption.
  unfold readElement_uint32Time, readElement_uint32, binarySerializer_Uint32.
  rewrite !binarySerializer_Uint_split.
  reflexivity.
Qed.

Lemma ParentBlock_BtcDecode_fields_witness :
  wf_Hash Sample.hashB /\ wf_Hash Sample.hashC
  /\ ParentBlock_BtcDecode
       ParentBlock_zero
       (le_split 4 (-1) ++ Sample.hashB ++ Sample.hashC ++ le_split 4 (2 ^ 32 + 5)
                 ++ le_split 4 6 ++ le_split 4 7 ++ [])
     = (None,
        mkParentBlock (int32 (uint32 (-1))) Sample.hashB Sample.hashC
                      (mkTime (uint32 (2 ^ 32 + 5)) 0) (uint32 6) (uint32 7),
        []).
Proof.
  assert (HB : wf_Hash Sample.hashB) by reflexivity.
  assert (HC : wf_Hash Sample.hashC) by reflexivity.
  split; [exact HB |]. split; [exact HC |].
  apply ParentBlock_BtcDecode_fields;
    [exact HB | exact HC | apply Nat.eq_le_incl; reflexivity
     | apply Nat.eq_le_incl; reflexivity].
Defined.

(** *** Merkle branches on the wire *)

Lemma readLinkHashes_concat (hs acc : list Hash) (rest : reader) :
  Forall wf_Hash hs ->
  readLinkHashes (length hs) acc (concat hs ++ rest) = (None, acc ++ hs, rest).
Proof.
  intros H. revert acc. induction H as [| h hs Hh Hhs IH]; intros acc.
  - cbn. rewrite app_nil_r. reflexivity.
  - cbn [length concat readLinkHashes]. rewrite <- app_assoc.
    rewrite readElement_Hash_app by (trivial; apply Nat.eq_le_incl; reflexivity).
    rewrite IH, <- app_assoc. reflexivity.
Qed.

(** X9.  [readMerkleBranch] on a count, that many hashes and four more bytes:
    the hashes arrive in their order, the four bytes are consumed without
    reaching the bitmask, and what follows them stays in the stream. *)
Theorem readMerkleBranch_wire
        (pver pver' : Z) (mb : MerkleBranch) (hs : list Hash) (b : list byte)
        (rest : reader) :
  Forall wf_Hash hs ->
  Z.of_nat (length hs) < 2 ^ 64 ->
  length b = 4%nat ->
  readMerkleBranch
    pver mb
    (snd (WriteVarInt [] pver' (Z.of_nat (length hs))) ++ concat hs ++ b ++ rest)
  = (None, mkMerkleBranch hs (BranchSidesBitmask mb), rest).
Proof.
  intros Hhs Hn Hb. unfold readMerkleBranch.
  rewrite ReadVarInt_WriteVarInt by (unfold is_uint64; lia).
  rewrite Nat2Z.id, readLinkHashes_concat by exact Hhs.
  unfold field, ignoring, keep. cbn [BranchSidesBitmask set_LinkHashes app].
  rewrite readElement_int32_byValue_consumes by exact Hb. reflexivity.
Qed.

Lemma readMerkleBranch_wire_witness :
  Forall wf_Hash [Sample.hashB; Sample.hashC]
  /\ readMerkleBranch
       0 (mkMerkleBranch [Sample.hashA] 7)
       (snd (WriteVarInt [] 0 (Z.of_nat (length [Sample.hashB; Sample.hashC])))
            ++ concat [Sample.hashB; Sample.hashC]
            ++ Sample.bytes_of [5; 0; 0; 0] ++ Sample.bytes_of [9])
     = (None, mkMerkleBranch [Sample.hashB; Sample.hashC] 7, Sample.bytes_of [9]).
Proof.
  assert (H : Forall wf_Hash [Sample.hashB; Sample.hashC])
    by (repeat constructor).
  split; [exact H |].
  apply (readMerkleBranch_wire 0 0 (mkMerkleBranch [Sample.hashA] 7)
                               [Sample.hashB; Sample.hashC]
                               (Sample.bytes_of [5; 0; 0; 0]) (Sample.bytes_of [9]) H).
  - vm_compute. reflexivity.
  - reflexivity.
Defined.

(** X8.  The loop over the link hashes returns no error exactly when the
    stream holds 32 bytes for each of the [n] hashes; then it returns [n]
    more hashes of 32 bytes and consumes [32 * n] bytes, else it consumes
    the whole stream. *)
Theorem readLinkHashes_enough (n : nat) (acc : list Hash) (r : reader) :
  (fst (fst (readLinkHashes n acc r)) = None <-> (32 * n <= length r)%nat)
  /\ ((32 * n <= length r)%nat ->
      exists hs, readLinkHashes n acc r = (None, acc ++ hs, skipn (32 * n) r)
                 /\ length hs = n /\ Forall wf_Hash hs /\ concat hs = firstn (32 * n) r)
  /\ ((length r < 32 * n)%nat -> snd (readLinkHashes n acc r) = []).
Proof.
  revert acc r. induction n as [| n IH]; intros acc r.
  - cbn [readLinkHashes fst snd]. split; [split; [lia | reflexivity] |]. split.
    + intros _. exists []. rewrite app_nil_r. repeat split; constructor.
    + lia.
  - cbn [readLinkHashes]. unfold readElement_Hash. change HashSize with 32%nat.
    destruct (Nat.le_gt_cases 32 (length r)) as [H32 | H32].
    + rewrite io_ReadFull_enough by exact H32.
      assert (Hf : length (firstn 32 r) = 32%nat) by (rewrite length_firstn; lia).
      rewrite overwrite_all by (rewrite Hf; apply Nat.eq_le_incl; reflexivity).
      destruct (IH (acc ++ [firstn 32 r]) (skipn 32 r)) as (I1 & I2 & I3).
      rewrite length_skipn in I1, I2, I3. split; [| split].
      * rewrite I1. lia.
      * intros H. destruct (I2 ltac:(lia)) as (hs & E & Hl & Hw & Hc).
        exists (firstn 32 r :: hs). split.
        { refine (eq_trans E _). rewrite <- app_assoc, skipn_skipn. do 2 f_equal. lia. }
        split; [cbn; lia |]. split.
        -- constructor; [exact Hf | exact Hw].
        -- cbn [concat]. rewrite Hc.
           replace (32 * S n)%nat with (32 + 32 * n)%nat by lia.
           rewrite firstn_skipn_comm.
           replace (firstn 32 r) with (firstn 32 (firstn (32 + 32 * n) r))
             by (rewrite firstn_firstn; f_equal; lia).
           apply firstn_skipn.
      * intros H. apply I3. lia.
    + destruct (io_ReadFull_short 32 r H32) as (e & -> & _ & _).
      cbn [fst snd]. split; [split; [intros E; discriminate E | lia] |].
      split; [lia | reflexivity].
Qed.

Lemma readLinkHashes_enough_witness :
  (32 * 2 <= length (Sample.hashB ++ Sample.hashC ++ Sample.hashA))%nat
  /\ exists hs,
      readLinkHashes 2 [] (Sample.hashB ++ Sample.hashC ++ Sample.hashA)
      = (None, [] ++ hs,
         skipn (32 * 2) (Sample.hashB ++ Sample.hashC ++ Sample.hashA))
      /\ length hs = 2%nat /\ Forall wf_Hash hs
      /\ concat hs
         = firstn (32 * 2) (Sample.hashB ++ Sample.hashC ++ Sample.hashA).
Proof.
  assert (H : (32 * 2 <= length (Sample.hashB ++ Sample.hashC ++ Sample.hashA))%nat)
    by (vm_compute; lia).
  split; [exact H |].
  exact (proj1 (proj2 (readLinkHashes_enough
                         2 [] (Sample.hashB ++ Sample.hashC ++ Sample.hashA))) H).
Defined.

(** *** Short streams, and what the decoder leaves alone *)

(** X11.  When at most 32 bytes follow the transaction, [readAuxBlockHeader]
    returns [io.EOF]; the bytes there were have overwritten the beginning
    of the parent block hash of the receiver. *)
Theorem readAuxBlockHeader_short
        (codec : TxCodec) (r r1 : reader) (pver : Z)
        (bh : AuxBlockHeader (MsgTx codec)) (e : option error) (tx' : MsgTx codec) :
  MsgTx_BtcDecode codec pver BaseEncoding (ParentCoinbase bh) r = (e, tx', r1) ->
  (length r1 <= 32)%nat ->
  readAuxBlockHeader codec r pver bh
  = (Some EOF,
     set_ParentBlockHash (overwrite (ParentBlockHash bh) r1)
                         (set_ParentCoinbase tx' bh),
     []).
Proof.
  intros Htx Hlen.
  unfold readAuxBlockHeader, andThen, ignoring, field. rewrite Htx.
  cbn [ParentBlockHash set_ParentCoinbase].
  assert (Hh : exists e2, readElement_Hash (ParentBlockHash bh) r1
                          = (e2, overwrite (ParentBlockHash bh) r1, [])).
  { unfold readElement_Hash. change HashSize with 32%nat.
    destruct (Nat.eq_dec (length r1) 32) as [E32 | N32].
    - rewrite io_ReadFull_enough by lia.
      rewrite <- E32, firstn_all, skipn_all. eexists. reflexivity.
    - destruct (io_ReadFull_short 32 r1 ltac:(lia)) as (e2 & -> & _).
      eexists. reflexivity. }
  destruct Hh as (e2 & ->).
  destruct bh as [t0 h0 c0 b0 p0]. reflexivity.
Qed.

Lemma readAuxBlockHeader_short_witness :
  (length (Sample.bytes_of [1; 2; 3]%Z) <= 32)%nat
  /\ readAuxBlockHeader BaseTx.codec (Sample.tx_bytes ++ Sample.bytes_of [1; 2; 3]) 0
                        Sample.plain
     = (Some EOF,
        set_ParentBlockHash
          (overwrite Sample.hashA (Sample.bytes_of [1; 2; 3]))
          (set_ParentCoinbase Sample.tx Sample.plain),
        []).
Proof.
  assert (L : (length (Sample.bytes_of [1; 2; 3]%Z) <= 32)%nat) by (vm_compute; lia).
  split; [exact L |].
  apply (readAuxBlockHeader_short BaseTx.codec _ (Sample.bytes_of [1; 2; 3]) 0
                                  Sample.plain None Sample.tx);
    [vm_compute; reflexivity | exact L].
Defined.

(** X12.  Whatever the stream and the receiver, and with or without an error,
    [readAuxBlockHeader] leaves the bitmasks of both branches as the
    receiver held them. *)
Theorem readAuxBlockHeader_bitmasks_unchanged
        (codec : TxCodec) (r r' : reader) (pver : Z)
        (bh bh' : AuxBlockHeader (MsgTx codec)) (e : option error) :
  readAuxBlockHeader codec r pver bh = (e, bh', r') ->
  BranchSidesBitmask (CoinbaseBranch bh') = BranchSidesBitmask (CoinbaseBranch bh)
  /\ BranchSidesBitmask (BlockchainBranch bh')
     = BranchSidesBitmask (BlockchainBranch bh).
Proof.
  intros E.
  pose proof (readAuxBlockHeader_keeps_bitmasks codec r pver bh) as H.
  rewrite E in H. exact H.
Qed.

Lemma readAuxBlockHeader_bitmasks_unchanged_witness :
  readAuxBlockHeader BaseTx.codec Sample.complete 0 Sample.used_receiver
  = (None, Sample.used_receiver, [])
  /\ BranchSidesBitmask (CoinbaseBranch Sample.used_receiver) = 7
  /\ BranchSidesBitmask (BlockchainBranch Sample.used_receiver) = 9.
Proof.
  assert (E : readAuxBlockHeader BaseTx.codec Sample.complete 0 Sample.used_receiver
              = (None, Sample.used_receiver, [])) by (vm_compute; reflexivity).
  split; [exact E |].
  exact (readAuxBlockHeader_bitmasks_unchanged BaseTx.codec _ _ _ _ _ _ E).
Defined.

(** *** What the encoder writes *)

Lemma flat_map_const_length {A} (l l' : list A) (b : list byte) :
  length l = length l' ->
  flat_map (fun _ => b) l = flat_map (fun _ => b) l'.
Proof.
  revert l'. induction l as [| a l IH]; intros [| a' l'] H;
    try discriminate H; [reflexivity |].
  cbn [flat_map]. f_equal. apply IH. injection H as H. exact H.
Qed.

Lemma writeMerkleBranch_same_count (w : writer) (pver : Z) (mb mb' : MerkleBranch) :
  length (LinkHashes mb) = length (LinkHashes mb') ->
  BranchSidesBitmask mb = BranchSidesBitmask mb' ->
  writeMerkleBranch w pver mb = writeMerkleBranch w pver mb'.
Proof.
  intros Hl Hb. rewrite !writeMerkleBranch_bytes, Hl, Hb.
  rewrite (flat_map_const_length _ _ _ Hl). reflexivity.
Qed.

(** X14.  The bytes [writeAuxBlockHeader] writes do not depend on the link
    hashes, only on how many there are: replacing the hashes of both
    branches by as many others gives the same output. *)
Theorem writeAuxBlockHeader_ignores_link_hashes
        (codec : TxCodec) (w : writer) (pver : Z)
        (bh : AuxBlockHeader (MsgTx codec)) (hs1 hs2 : list Hash) :
  length hs1 = length (LinkHashes (CoinbaseBranch bh)) ->
  length hs2 = length (LinkHashes (BlockchainBranch bh)) ->
  writeAuxBlockHeader codec w pver (with_LinkHashes hs1 hs2 bh)
  = writeAuxBlockHeader codec w pver bh.
Proof.
  intros H1 H2. unfold writeAuxBlockHeader, with_LinkHashes.
  cbn [ParentCoinbase ParentBlockHash CoinbaseBranch BlockchainBranch ParentBlock_
       set_BlockchainBranch set_CoinbaseBranch].
  rewrite (writeMerkleBranch_same_count _ pver
             (set_LinkHashes hs1 (CoinbaseBranch bh)) (CoinbaseBranch bh))
    by (trivial; exact H1).
  rewrite (writeMerkleBranch_same_count _ pver
             (set_LinkHashes hs2 (BlockchainBranch bh)) (BlockchainBranch bh))
    by (trivial; exact H2).
  reflexivity.
Qed.

Lemma writeAuxBlockHeader_ignores_link_hashes_witness :
  length [Sample.hashB] = length (LinkHashes (CoinbaseBranch Sample.with_hash))
  /\ with_LinkHashes [Sample.hashB] [] Sample.with_hash <> Sample.with_hash
  /\ writeAuxBlockHeader BaseTx.codec [] 0
                         (with_LinkHashes [Sample.hashB] [] Sample.with_hash)
     = writeAuxBlockHeader BaseTx.codec [] 0 Sample.with_hash.
Proof.
  assert (H1 : length [Sample.hashB]
               = length (LinkHashes (CoinbaseBranch Sample.with_hash))) by reflexivity.
  assert (H2 : length (@nil Hash)
               = length (LinkHashes (BlockchainBranch Sample.with_hash))) by reflexivity.
  split; [exact H1 |]. split; [intros E; discriminate E |].
  exact (writeAuxBlockHeader_ignores_link_hashes
           BaseTx.codec [] 0 Sample.with_hash [Sample.hashB] [] H1 H2).
Defined.

(** X15.  The bytes of a branch depend on the protocol version as soon as the
    branch has a link hash: two versions give the same bytes exactly when
    there is no link hash or the versions agree as 32-bit numbers. *)
Theorem writeMerkleBranch_pver (w : writer) (pver pver' : Z) (mb : MerkleBranch) :
  writeMerkleBranch w pver mb = writeMerkleBranch w pver' mb
  <-> (LinkHashes mb = [] \/ uint32 pver = uint32 pver').
Proof.
  rewrite !writeMerkleBranch_bytes.
  assert (V : snd (WriteVarInt [] pver (uint64 (Z.of_nat (length (LinkHashes mb)))))
              = snd (WriteVarInt [] pver' (uint64 (Z.of_nat (length (LinkHashes mb))))))
    by reflexivity.
  rewrite V. split.
  - intros E. apply app_inv_head in E. apply app_inv_head in E.
    apply app_inv_tail in E.
    destruct (LinkHashes mb) as [| h hs]; [left; reflexivity | right].
    cbn [flat_map] in E.
    apply (f_equal (firstn 4)) in E.
    rewrite !firstn_app, !length_le_split, !Nat.sub_diag in E.
    rewrite !firstn_O, !app_nil_r in E.
    rewrite !firstn_all2 in E by (rewrite length_le_split; lia).
    apply (f_equal le_combine) in E. rewrite !le_combine_split in E.
    exact E.
  - intros [E | E].
    + rewrite E. reflexivity.
    + do 2 f_equal. f_equal.
      apply flat_map_ext. intros _.
      rewrite (le_split_mod pver), (le_split_mod pver').
      unfold uint32, wrap_unsigned in E.
      change (Z.of_nat 4 * 8) with 32. rewrite E. reflexivity.
Qed.

Lemma writeMerkleBranch_pver_witness :
  uint32 (2 ^ 32 + 5) = uint32 5
  /\ writeMerkleBranch [] (2 ^ 32 + 5) (mkMerkleBranch [Sample.hashA] 1)
     = writeMerkleBranch [] 5 (mkMerkleBranch [Sample.hashA] 1).
Proof.
  assert (E : uint32 (2 ^ 32 + 5) = uint32 5) by reflexivity.
  split; [exact E |].
  apply (proj2 (writeMerkleBranch_pver [] (2 ^ 32 + 5) 5
                                        (mkMerkleBranch [Sample.hashA] 1))).
  right. exact E.
Defined.

(** X16.  [writeAuxBlockHeader] returns no error and appends to the
    writer, in this order: the bytes of the transaction, the parent block
    hash, the coinbase branch, the blockchain branch and the parent
    header.  A branch is its count, then [pver] in four bytes once per
    link hash, then its bitmask in four bytes; the parent header is the
    version, the two hashes, the Unix seconds, the bits and the nonce, 80
    bytes in all. *)
Theorem writeAuxBlockHeader_layout
        (codec : TxCodec) (w : writer) (pver : Z) (bh : AuxBlockHeader (MsgTx codec)) :
  let branch (mb : MerkleBranch) :=
    snd (WriteVarInt [] pver (uint64 (Z.of_nat (length (LinkHashes mb)))))
        ++ flat_map (fun _ => le_split 4 pver) (LinkHashes mb)
        ++ le_split 4 (uint32 (BranchSidesBitmask mb)) in
  let parent (pb : ParentBlock) :=
    le_split 4 (uint32 (Version pb)) ++ PrevBlock pb ++ MerkleRoot pb
             ++ le_split 4 (uint32 (Time_Unix (Timestamp pb)))
             ++ le_split 4 (Bits pb) ++ le_split 4 (Nonce pb) in
  writeAuxBlockHeader codec w pver bh
  = (None,
     w ++ snd (MsgTx_BtcEncode codec (ParentCoinbase bh) pver BaseEncoding)
       ++ ParentBlockHash bh
       ++ branch (CoinbaseBranch bh)
       ++ branch (BlockchainBranch bh)
       ++ parent (ParentBlock_ bh))
  /\ (forall mb,
         length (branch mb)
         = (VarIntSerializeSize (uint64 (Z.of_nat (length (LinkHashes mb))))
            + 4 * length (LinkHashes mb) + 4)%nat)
  /\ (forall pb,
         wf_Hash (PrevBlock pb) -> wf_Hash (MerkleRoot pb) ->
         length (parent pb) = 80%nat).
Proof.
  cbv zeta. split; [| split].
  - unfold writeAuxBlockHeader.
    cbn [writeElements writeElement snd].
    rewrite !writeMerkleBranch_bytes, writeBlockHeader_bytes. cbn [snd].
    repeat rewrite <- app_assoc. reflexivity.
  - intros mb.
    rewrite !length_app, length_WriteVarInt, length_flat_map_const,
      !length_le_split. lia.
  - unfold wf_Hash. change HashSize with 32%nat. intros pb Hp Hm.
    rewrite !length_app, !length_le_split, Hp, Hm. reflexivity.
Qed.

Lemma writeAuxBlockHeader_layout_witness :
  wf_Hash (PrevBlock Sample.parent) /\ wf_Hash (MerkleRoot Sample.parent)
  /\ length (le_split 4 (uint32 (Version Sample.parent)) ++ PrevBlock Sample.parent
               ++ MerkleRoot Sample.parent
               ++ le_split 4 (uint32 (Time_Unix (Timestamp Sample.parent)))
               ++ le_split 4 (Bits Sample.parent) ++ le_split 4 (Nonce Sample.parent))
     = 80%nat.
Proof.
  assert (H2 : wf_Hash (PrevBlock Sample.parent)) by reflexivity.
  assert (H3 : wf_Hash (MerkleRoot Sample.parent)) by reflexivity.
  split; [exact H2 |]. split; [exact H3 |].
  exact (proj2 (proj2 (writeAuxBlockHeader_layout BaseTx.codec [] 0 Sample.with_hash))
           Sample.parent H2 H3).
Defined.

(** *** The constructor *)

(** X17.  [NewAuxBlockHeader] with two non-nil hashes returns the header
    whose parent block holds the arguments and the clock time cut to
    whole seconds, and whose other fields are zero values.  For valid
    arguments at a time the wire can carry (and where the empty
    transaction survives the transaction codec), the bytes [Serialize]
    writes for it are read by [Deserialize] without error and to the end,
    into a header with the same transaction, parent block hash and parent
    block, with no link hashes and with the bitmasks 0. *)
Theorem NewAuxBlockHeader_decoded
        (codec : TxCodec) (now : Time) (version bits nonce : Z) (prev root : Hash) :
  tx_roundtrips codec 0 (MsgTx_zero codec) ->
  is_int32 version -> wf_Hash prev -> wf_Hash root ->
  is_uint32 (Time_Unix now) -> is_uint32 bits -> is_uint32 nonce ->
  let x := mkAuxBlockHeader
             (MsgTx_zero codec) Hash_zero (mkMerkleBranch [] 0) (mkMerkleBranch [] 0)
             (mkParentBlock version prev root (mkTime (unix_sec now) 0) bits nonce) in
  NewAuxBlockHeader codec now version (Some prev) (Some root) bits nonce = Some x
  /\ wf_AuxBlockHeader x
  /\ exists y,
      Deserialize codec (AuxBlockHeader_zero codec) (snd (Serialize codec x []))
      = (None, y, [])
      /\ ParentCoinbase y = MsgTx_zero codec
      /\ ParentBlockHash y = Hash_zero
      /\ length (LinkHashes (CoinbaseBranch y)) = 0%nat
      /\ BranchSidesBitmask (CoinbaseBranch y) = 0
      /\ length (LinkHashes (BlockchainBranch y)) = 0%nat
      /\ BranchSidesBitmask (BlockchainBranch y) = 0
      /\ ParentBlock_ y
         = mkParentBlock version prev root (mkTime (unix_sec now) 0) bits nonce.
Proof.
  intros Htx Hv Hp Hr Ht Hb Hn x.
  assert (Hwf : wf_AuxBlockHeader x).
  { assert (Z0 : is_int32 0) by (unfold is_int32; lia).
    split; [reflexivity |].
    split; [split; [apply Forall_nil | exact Z0] |].
    split; [split; [apply Forall_nil | exact Z0] |].
    split; [exact Hv |]. split; [exact Hp |]. split; [exact Hr |].
    split; [split; [exact Ht | reflexivity] |].
    split; [exact Hb | exact Hn]. }
  split; [reflexivity |]. split; [exact Hwf |].
  exists x. split.
  - rewrite Deserialize_Serialize_no_links; trivial.
  - repeat split.
Qed.

(** With a nil hash the constructor panics. *)
Lemma NewAuxBlockHeader_nil
      (codec : TxCodec) (now : Time) (version bits nonce : Z) (h : option Hash) :
  NewAuxBlockHeader codec now version None h bits nonce = None
  /\ NewAuxBlockHeader codec now version h None bits nonce = None.
Proof. destruct h; split; reflexivity. Qed.

Lemma NewAuxBlockHeader_decoded_witness :
  tx_roundtrips BaseTx.codec 0 (MsgTx_zero BaseTx.codec)
  /\ NewAuxBlockHeader BaseTx.codec (mkTime 1600000000 123456789) 2
                       (Some Sample.hashB) (Some Sample.hashC) 0x1d00ffff 12345
     = Some (mkAuxBlockHeader
               (MsgTx_zero BaseTx.codec) Hash_zero (mkMerkleBranch [] 0)
               (mkMerkleBranch [] 0)
               (mkParentBlock 2 Sample.hashB Sample.hashC (mkTime 1600000000 0)
                              0x1d00ffff 12345)).
Proof.
  assert (Htx : tx_roundtrips BaseTx.codec 0 (MsgTx_zero BaseTx.codec))
    by (intros msg rest; vm_compute; reflexivity).
  split; [exact Htx |].
  refine (proj1 (NewAuxBlockHeader_decoded
                   BaseTx.codec (mkTime 1600000000 123456789) 2 0x1d00ffff 12345
                   Sample.hashB Sample.hashC Htx _ _ _ _ _ _));
    first [ reflexivity | unfold is_int32, is_uint32; cbn; lia ].
Defined.

End WireMore.
